(** * Back-testing core: strategy simulators, performance metrics, sensitivity harness

    A shallow embedding of

      - [lib/performance_analysis.py]       ([calculate_strategy_one_performance])
      - [lib/backtest/strategy_two.py]      ([backtest_strategy_two])
      - [lib/backtest/strategy_three.py]    ([backtest_strategy_three])
      - [lib/backtest/backtest_adjusted.py] ([sensitivity_analysis])

    and the properties of the design document that concern them.

    Numbers.  Prices, returns and equity values are Python floats in the
    source.  They are embedded as exact rationals ([Q], compared with [==]):
    every arithmetic step of the source is kept, its rounding is not.  The
    two non-finite floats the code can produce are kept apart from the finite
    ones in [pyvalue]: [float("inf")] and the NaN that pandas returns for the
    maximum of an empty series.  Indicator cells, which pandas fills with NaN
    while a rolling window is incomplete, are [option Q]; a comparison with a
    NaN operand is false, as in Python.  Price cells are finite.

    Two results of the metrics engine depend on more of binary64 than that,
    and are computed with it.  The win rate is shown as text: its digits are
    those of the double nearest to the ratio, multiplied by 100 in binary64
    ([round_binary64]).  The profit/loss ratio is a quotient that the source
    itself sets to infinity: the sums, the averages and the quotient behind
    it are followed out of the finite range ([float], [as_float]), where
    they become infinite or NaN.  The fields typed [Q] hold the value of the
    arithmetic while it stays in the finite range.

    Frames.  A DataFrame is a list of rows; the columns a function may or
    may not have created are told apart by the constructors of [Frame].

    Effects.  The simulators and the metrics engine are pure functions.  The
    harness draws random numbers and loops without a bound on the number of
    passes: the generator is an oracle indexed by the number of requests
    made so far, exceptions are a constructor of [outcome], and the [while]
    loop is followed for a given number of passes ([fuel]) before the run is
    classified as [Diverges]. *)

From Stdlib Require Import ZArith QArith Qminmax Qround Qabs Qpower.
From Stdlib Require Import String Ascii DecimalString Bool Lia Lqa List.
Import ListNotations.
Open Scope Q_scope.

(* ================================================================== *)
(** ** Numbers *)
(* ================================================================== *)

(** The value of a result field whose Python type is not fixed to a finite
    float: a finite number, [float("inf")], NaN, or a [str]. *)
Inductive pyvalue : Type :=
| Fin (q : Q)
| Inf
| NaN
| Str (s : string).

(** Python's [x < y] on finite floats. *)
Definition Qltb (x y : Q) : bool := negb (Qle_bool y x).

(** [x != 0] *)
Definition nonzero (x : Q) : bool := negb (Qeq_bool x 0).

(** An indicator cell: [None] is NaN. *)
Definition cell := option Q.

(** [a < b] where either side may be NaN. *)
Definition cell_lt (a b : cell) : bool :=
  match a, b with
  | Some x, Some y => Qltb x y
  | _, _ => false
  end.

Definition Qsum (l : list Q) : Q := fold_left Qplus l 0.

(** *** Leaving the finite range of binary64 *)

(** A result of this magnitude or more is rounded to an infinity. *)
Definition overflow_threshold : Q := 2 ^ 1024 - 2 ^ 970.

(** A float that may have left the finite range. *)
Inductive float : Type :=
| F (q : Q)
| PosInf
| NegInf
| FNaN.

(** The float an operation with exact result [x] yields. *)
Definition as_float (x : Q) : float :=
  if Qle_bool overflow_threshold x then PosInf
  else if Qle_bool x (- overflow_threshold) then NegInf
  else F x.

(** [a / b] on numpy floats: no exception, the IEEE result. *)
Definition float_div (a b : float) : float :=
  match a with
  | FNaN => FNaN
  | F x =>
      match b with
      | FNaN => FNaN
      | F y =>
          if Qeq_bool y 0 then
            if Qeq_bool x 0 then FNaN
            else if Qltb 0 x then PosInf else NegInf
          else as_float (x / y)
      | PosInf | NegInf => F 0
      end
  | PosInf =>
      match b with
      | F y => if Qltb y 0 then NegInf else PosInf
      | _ => FNaN
      end
  | NegInf =>
      match b with
      | F y => if Qltb y 0 then PosInf else NegInf
      | _ => FNaN
      end
  end.

(** [a == 0] *)
Definition float_is_zero (a : float) : bool :=
  match a with
  | F x => Qeq_bool x 0
  | _ => false
  end.

(** [abs(a)], as the value of a result field. *)
Definition float_abs (a : float) : pyvalue :=
  match a with
  | F x => Fin (Qabs x)
  | PosInf | NegInf => Inf
  | FNaN => NaN
  end.

Definition Qlen (l : list Q) : Q := inject_Z (Z.of_nat (length l)).

(* ================================================================== *)
(** ** Data frames *)
(* ================================================================== *)

(** One row of the input series: the columns "開盤價" and "收盤價". *)
Record PriceBar : Type := mkBar {
  open_price  : Q;
  close_price : Q
}.

(** One row of a simulated frame: the price columns together with the
    columns "ret", "cus", "position" and "BH" the simulators add. *)
Record Row : Type := mkRow {
  bar      : PriceBar;
  ret      : Q;
  cus      : Q;
  position : Z;
  BH       : Q
}.

(** What a simulator hands back: the frame with the result columns, or, on
    the early return, the frame without them. *)
Inductive Frame : Type :=
| Bare (df : list PriceBar)
| Full (df : list Row).

(* ================================================================== *)
(** ** Performance metrics engine ([performance_analysis.py]) *)
(* ================================================================== *)

Module Metrics.

(** [s.cummax()] *)
Fixpoint cummax_from (m : Q) (s : list Q) : list Q :=
  match s with
  | [] => []
  | x :: t => Qmax m x :: cummax_from (Qmax m x) t
  end.

Definition cummax (s : list Q) : list Q :=
  match s with
  | [] => []
  | x :: t => x :: cummax_from x t
  end.

(** [a - b] on two aligned series. *)
Definition series_sub (a b : list Q) : list Q :=
  map (fun p => fst p - snd p) (combine a b).

(** [s.max()]: NaN on an empty series. *)
Definition series_max (s : list Q) : pyvalue :=
  match s with
  | [] => NaN
  | x :: t => Fin (fold_left Qmax t x)
  end.

(** [[
    def maxdrawdown(s):
        s = s.cummax() - s
        return s.max()
    ]] *)
Definition maxdrawdown (s : list Q) : pyvalue :=
  series_max (series_sub (cummax s) s).

(** [df["ret"][df["ret"] != 0].dropna()]; the cells are finite, so [dropna]
    removes nothing. *)
Definition trades_of (df : list Row) : list Q :=
  filter nonzero (map ret df).

Definition winning (trades : list Q) : list Q := filter (fun t => Qltb 0 t) trades.
Definition losing  (trades : list Q) : list Q := filter (fun t => Qltb t 0) trades.

(** [s.max()] and [s.min()] on a series known to be non-empty, with the
    [else 0] of the source for the empty one. *)
Definition max_or_zero (s : list Q) : Q :=
  match s with [] => 0 | x :: t => fold_left Qmax t x end.
Definition min_or_zero (s : list Q) : Q :=
  match s with [] => 0 | x :: t => fold_left Qmin t x end.

(** [cus_series.iloc[-1]] *)
Definition iloc_last (s : list Q) : Q := last s 0.

(** The four counters of the streak scan. *)
Record Streaks : Type := mkStreaks {
  longest_win  : nat;
  longest_loss : nat;
  current_win  : nat;
  current_loss : nat
}.

Definition streak_step (s : Streaks) (trade_return : Q) : Streaks :=
  let '(cw, cl) :=
    if Qltb 0 trade_return then (S (current_win s), O)
    else if Qltb trade_return 0 then (O, S (current_loss s))
    else (current_win s, current_loss s) in
  mkStreaks (Nat.max (longest_win s) cw) (Nat.max (longest_loss s) cl) cw cl.

Definition streak_scan (trades : list Q) : Streaks :=
  fold_left streak_step trades (mkStreaks 0 0 0 0).

(** *** Rendering of [f"{win_rate:.2%}"] *)

Definition round_half_even (x : Q) : Z :=
  let f := Qfloor x in
  match Qcompare (x - inject_Z f) (1 # 2) with
  | Lt => f
  | Gt => (f + 1)%Z
  | Eq => if Z.even f then f else (f + 1)%Z
  end.

(** The integer [e] with [2^e <= x < 2^(e+1)], for a positive [x]. *)
Definition floor_log2 (x : Q) : Z :=
  let l := (Z.log2 (Qnum x) - Z.log2 (Zpos (Qden x)))%Z in
  if Qle_bool (2 ^ l) x then l else (l - 1)%Z.

(** The double nearest to [x], ties to even: 53 significant bits, the
    exponent not below that of the subnormal numbers.  Overflow is left
    out: the values rounded here are at most 100. *)
Definition round_positive (x : Q) : Q :=
  let s := Z.max (floor_log2 x - 52) (-1074) in
  inject_Z (round_half_even (x / 2 ^ s)) * 2 ^ s.

Definition round_binary64 (x : Q) : Q :=
  match Qcompare x 0 with
  | Eq => 0
  | Gt => round_positive x
  | Lt => - round_positive (- x)
  end.

Definition decimal (n : Z) : string :=
  NilZero.string_of_uint (N.to_uint (Z.to_N n)).

Definition two_digits (n : Z) : string :=
  if (n <? 10)%Z then ("0" ++ decimal n)%string else decimal n.

(** [f"{x:.2%}"] for a double [x]: multiply by 100 in binary64, show the
    product in fixed notation with two decimals, correctly rounded, and
    append "%". *)
Definition format_percent2 (x : Q) : string :=
  let h := round_half_even (round_binary64 (x * 100) * 100) in
  let a := Z.abs h in
  ((if (h <? 0)%Z then "-" else "") ++
   decimal (a / 100) ++ "." ++ two_digits (a mod 100) ++ "%")%string.

(** The returned dict, one field per key. *)
Record PerformanceRecord : Type := mkPerf {
  final_equity       : Q;        (* "最終權益 (Mark-to-Market)" *)
  net_profit         : Q;        (* "淨利或淨損 (已實現)" *)
  mdd                : pyvalue;  (* "最大回撤 (MDD)" *)
  total_profit       : Q;        (* "總獲利 (已實現)" *)
  total_loss         : Q;        (* "總損失 (已實現)" *)
  total_trades       : nat;      (* "總交易次數" *)
  num_winning_trades : nat;      (* "賺錢交易次數" *)
  num_losing_trades  : nat;      (* "虧錢交易次數" *)
  win_rate           : pyvalue;   (* "勝率" *)
  max_profit_trade   : Q;        (* "單次交易最大獲利" *)
  max_loss_trade     : Q;        (* "單次交易最大損失" *)
  avg_profit         : Q;        (* "獲利交易中的平均獲利" *)
  avg_loss           : Q;        (* "損失交易中的平均損失" *)
  profit_loss_ratio  : pyvalue;  (* "賺賠比" *)
  longest_win_streak  : nat;     (* "最長的連續性獲利的次數" *)
  longest_loss_streak : nat      (* "最長的連續性損失的次數" *)
}.

Definition calculate_strategy_one_performance (df_backtest_output : list Row)
  : PerformanceRecord :=
  let trades := trades_of df_backtest_output in
  let cus_series := map cus df_backtest_output in
  let mdd := maxdrawdown cus_series in
  let total_trades := length trades in
  match total_trades with
  | O =>
      mkPerf (match cus_series with [] => 0 | _ => iloc_last cus_series end)
             0 mdd 0 0 0 0 0 (Str "0.00%") 0 0 0 0 (Fin 0) 0 0
  | S _ =>
      let winning_trades := winning trades in
      let losing_trades := losing trades in
      let total_profit := Qsum winning_trades in
      let total_loss := Qsum losing_trades in
      let num_winning_trades := length winning_trades in
      let num_losing_trades := length losing_trades in
      let win_rate := round_binary64 (Qlen winning_trades / Qlen trades) in
      let max_profit_trade := max_or_zero winning_trades in
      let max_loss_trade := min_or_zero losing_trades in
      let avg_profit :=
        match num_winning_trades with
        | O => 0
        | S _ => total_profit / Qlen winning_trades
        end in
      let avg_loss :=
        match num_losing_trades with
        | O => 0
        | S _ => total_loss / Qlen losing_trades
        end in
      (* the same sums, averages and quotient, followed out of the finite
         range: they decide the ratio *)
      let avg_profit_f :=
        match num_winning_trades with
        | O => F 0
        | S _ => float_div (as_float total_profit) (F (Qlen winning_trades))
        end in
      let avg_loss_f :=
        match num_losing_trades with
        | O => F 0
        | S _ => float_div (as_float total_loss) (F (Qlen losing_trades))
        end in
      let profit_loss_ratio :=
        if float_is_zero avg_loss_f then Inf
        else float_abs (float_div avg_profit_f avg_loss_f) in
      let st := streak_scan trades in
      mkPerf (iloc_last cus_series) (Qsum trades) mdd
             total_profit total_loss
             total_trades num_winning_trades num_losing_trades
             (Str (format_percent2 win_rate))
             max_profit_trade max_loss_trade avg_profit avg_loss
             profit_loss_ratio
             (longest_win st) (longest_loss st)
  end.

End Metrics.

(* ================================================================== *)
(** ** Strategy simulators ([strategy_two.py], [strategy_three.py]) *)
(* ================================================================== *)

(** [df.iloc[i]] inside the loop, where [i] is always in range. *)
Definition iloc (df : list PriceBar) (i : nat) : PriceBar := nth i df (mkBar 0 0).

(** [df.iloc[i][col]] for an indicator column. *)
Definition at_ (col : list cell) (i : nat) : cell := nth i col None.

(** The loop variables [position], [avg_cost] and [cum_ret]. *)
Record SimState : Type := mkState {
  cur_position : Z;
  avg_cost     : Q;
  cum_ret      : Q
}.

(** What one pass of the loop body leaves in row [i]: the cells
    [df.at[idx, "ret"]], [df.at[idx, "cus"]] and [df.at[idx, "position"]].
    The index labels are taken to be distinct, so that [df.at[idx, _]]
    addresses row [i] only. *)
Record Out : Type := mkOut {
  o_ret : Q;
  o_cus : Q;
  o_position : Z
}.

(** The state before the loop, and row 0, which the loop never writes. *)
Definition init_state : SimState := mkState 0 0 0.
Definition init_out : Out := mkOut 0 0 0.

(** [for i in range(start, start + n): body] *)
Fixpoint loop (body : nat -> SimState -> SimState * Out)
              (n i : nat) (st : SimState) : list Out :=
  match n with
  | O => []
  | S n' => let '(st', o) := body i st in o :: loop body n' (S i) st'
  end.

(** The result columns joined to the price columns, and the buy-and-hold
    column [df["BH"] = df["收盤價"] - df["收盤價"].iloc[0]]. *)
Definition assemble (df : list PriceBar) (outs : list Out) : list Row :=
  let first_close := close_price (iloc df 0) in
  map (fun p : PriceBar * Out =>
         mkRow (fst p) (o_ret (snd p)) (o_cus (snd p)) (o_position (snd p))
               (close_price (fst p) - first_close))
      (combine df outs).

(** The last part of the loop body, common to both strategies: the exit
    test result [sell] applies only while a position is held; then the
    daily settlement. *)
Definition settle (row : PriceBar) (position : Z) (avg_cost cum_ret : Q)
                  (sell : bool) : SimState * Out :=
  let '(position, avg_cost, cum_ret, ret) :=
    if (position =? 1)%Z then
      if sell then
        let exit_price := close_price row in
        let ret := exit_price - avg_cost in
        (0%Z, 0, cum_ret + ret, ret)
      else (position, avg_cost, cum_ret, 0)
    else (position, avg_cost, cum_ret, 0) in
  let cus :=
    if (position =? 1)%Z then cum_ret + (close_price row - avg_cost)
    else cum_ret in
  (mkState position avg_cost cum_ret, mkOut ret cus position).

Section Simulators.

(** [lib.technical_indicators.calc_ma] is imported, not defined, by the
    simulators: [calc_ma df period] stands for the column [MA{period}] it
    adds to the frame. *)
Variable calc_ma : list PriceBar -> Z -> list cell.

(** *** Strategy two: dual moving-average golden cross *)

(** The golden cross seen from row [i]: at [i-2] the short average is
    below the long one, at [i-1] above it. *)
Definition is_golden_cross (short_ma long_ma : list cell) (i : nat) : bool :=
  cell_lt (at_ short_ma (i - 2)) (at_ long_ma (i - 2)) &&
  cell_lt (at_ long_ma (i - 1)) (at_ short_ma (i - 1)).

(** The exit test at row [i]: the mid price is below the short average. *)
Definition below_short_ma (df : list PriceBar) (short_ma : list cell) (i : nat)
  : bool :=
  let row := iloc df i in
  let mid_price := (open_price row + close_price row) / 2 in
  cell_lt (Some mid_price) (at_ short_ma i).

Definition body_two (df : list PriceBar) (short_ma long_ma : list cell)
                    (i : nat) (st : SimState) : SimState * Out :=
  let row := iloc df i in
  let '(position, avg_cost) :=
    if (cur_position st =? 0)%Z && (1 <? i)%nat then
      if is_golden_cross short_ma long_ma i then (1%Z, open_price row)
      else (cur_position st, avg_cost st)
    else (cur_position st, avg_cost st) in
  settle row position avg_cost (cum_ret st) (below_short_ma df short_ma i).

Definition backtest_strategy_two (df : list PriceBar)
                                 (short_ma_period long_ma_period : Z) : Frame :=
  let short_ma := calc_ma df short_ma_period in
  let long_ma := calc_ma df long_ma_period in
  let L := length df in
  if (L <? 2)%nat then Bare df
  else
    Full (assemble df
            (init_out :: loop (body_two df short_ma long_ma) (L - 1) 1 init_state)).

(** *** Strategy three: triple moving-average alignment *)

(** The bullish alignment seen from row [i]: at [i-1] the short average is
    above the medium one and the medium one above the long one. *)
Definition is_bullish_alignment (short_ma medium_ma long_ma : list cell)
                                (i : nat) : bool :=
  cell_lt (at_ medium_ma (i - 1)) (at_ short_ma (i - 1)) &&
  cell_lt (at_ long_ma (i - 1)) (at_ medium_ma (i - 1)).

(** The exit test at row [i]: the short average is below the medium one. *)
Definition short_below_medium (short_ma medium_ma : list cell) (i : nat) : bool :=
  cell_lt (at_ short_ma i) (at_ medium_ma i).

Definition body_three (df : list PriceBar) (short_ma medium_ma long_ma : list cell)
                      (i : nat) (st : SimState) : SimState * Out :=
  let row := iloc df i in
  let '(position, avg_cost) :=
    if (cur_position st =? 0)%Z then
      if is_bullish_alignment short_ma medium_ma long_ma i
      then (1%Z, open_price row)
      else (cur_position st, avg_cost st)
    else (cur_position st, avg_cost st) in
  settle row position avg_cost (cum_ret st)
         (short_below_medium short_ma medium_ma i).

Definition backtest_strategy_three (df : list PriceBar)
                                   (ma_short ma_medium ma_long : Z) : Frame :=
  let short_ma := calc_ma df ma_short in
  let medium_ma := calc_ma df ma_medium in
  let long_ma := calc_ma df ma_long in
  let L := length df in
  if (L <? 2)%nat then Bare df
  else
    Full (assemble df
            (init_out ::
             loop (body_three df short_ma medium_ma long_ma) (L - 1) 1 init_state)).

End Simulators.

(** Modelled from the spec: [lib/technical_indicators.py] ([calc_ma]) is not
    part of the sources at hand.  The specification describes it as a pure
    rolling-average transform that adds one column per period; here it is the
    mean of the last [period] closing prices, NaN while fewer than [period]
    rows are available. *)
Definition rolling_mean (closes : list Q) (period : Z) (i : nat) : cell :=
  let w := Z.to_nat period in
  if (0 <? period)%Z && (w <=? S i)%nat then
    Some (Qsum (firstn w (skipn (S i - w) closes)) / inject_Z period)
  else None.

Definition sma (df : list PriceBar) (period : Z) : list cell :=
  map (rolling_mean (map close_price df) period) (seq 0 (length df)).

Definition bars (opens closes : list Q) : list PriceBar :=
  map (fun p => mkBar (fst p) (snd p)) (combine opens closes).


(** *** Reading a trajectory *)

(** Number of leading cells equal to 1. *)
Fixpoint leading_ones (l : list Z) : nat :=
  match l with
  | p :: t => if (p =? 1)%Z then S (leading_ones t) else O
  | [] => O
  end.

(** The row at which the position held at the end of the "position" column
    was opened: the first row of the final run of 1s. *)
Definition entry_index (positions : list Z) : nat :=
  (length positions - leading_ones (rev positions))%nat.

Definition no_row : Row := mkRow (mkBar 0 0) 0 0 0 0.

(** Unrealized value at the last row: last close minus the open of the entry
    row while a position is held, nothing when flat. *)
Definition unrealized (rows : list Row) : Q :=
  let final := last rows no_row in
  if (position final =? 1)%Z then
    close_price (bar final)
    - open_price (bar (nth (entry_index (map position rows)) rows no_row))
  else 0.


(* ================================================================== *)
(** ** Sensitivity harness ([backtest_adjusted.py]) *)
(* ================================================================== *)

(** Exceptions.  [ValueError] is what [random.randint] raises on an empty
    range and [KeyError] what a missing column raises.  [ConfigurationError]
    is the error the specification speaks of; no statement of the sources
    raises it. *)
Inductive exn : Type :=
| ValueError
| KeyError
| ConfigurationError.

(** How a call ends: with a value, with an exception, or not at all. *)
Inductive outcome (A : Type) : Type :=
| Returns (a : A)
| Raises (e : exn)
| Diverges.

Arguments Returns {A} a.
Arguments Raises {A} e.
Arguments Diverges {A}.

(** A call to one of the simulators: their bodies hold no [raise] and no
    test of the periods, so the call ends with the frame computed. *)
Definition call {A : Type} (a : A) : outcome A := Returns a.

(** Computations of the harness: the number of values taken from the
    generator so far is threaded through; exceptions propagate. *)
Definition M (A : Type) : Type := nat -> outcome (A * nat).

Definition unit_M {A} (a : A) : M A := fun k => Returns (a, k).

Definition bind_M {A B} (c : M A) (f : A -> M B) : M B :=
  fun k =>
    match c k with
    | Returns (a, k') => f a k'
    | Raises e => Raises e
    | Diverges => Diverges
    end.

Definition lift_M {A} (o : outcome A) : M A :=
  fun k =>
    match o with
    | Returns a => Returns (a, k)
    | Raises e => Raises e
    | Diverges => Diverges
    end.

Declare Scope harness_scope.
Delimit Scope harness_scope with harness.
Notation "x <- c ;; k" := (bind_M c (fun x => k))
  (at level 61, c at next level, right associativity) : harness_scope.

(** [param_ranges]: one [(min, max)] pair per key. *)
Record ParamRanges : Type := mkRanges {
  ma_period_range      : Z * Z;
  bb_period_range      : Z * Z;
  bb_std_range         : Q * Q;
  drop_threshold_range : Q * Q
}.

(** The default taken when [param_ranges is None]. *)
Definition default_ranges : ParamRanges :=
  mkRanges (3, 15)%Z (16, 40)%Z (1, 3) (1 # 10, 9 # 10).

(** A frame with the columns "entry" and "exit" the harness adds. *)
Record MarkedRow : Type := mkMarked {
  row   : Row;
  entry : bool;
  exit  : bool
}.

(** [(position == 1) & (position.shift(1) == 0)] and its mirror image; the
    shifted column starts with NaN, which equals neither 0 nor 1. *)
Fixpoint mark_from (shifted : option Z) (rows : list Row) : list MarkedRow :=
  match rows with
  | [] => []
  | r :: t =>
      let was v := match shifted with Some p => (p =? v)%Z | None => false end in
      mkMarked r ((position r =? 1)%Z && was 0%Z) ((position r =? 0)%Z && was 1%Z)
        :: mark_from (Some (position r)) t
  end.

(** [df_result['position']] must exist. *)
Definition mark_entry_exit (df_result : Frame) : outcome (list MarkedRow) :=
  match df_result with
  | Bare _ => Raises KeyError
  | Full rows => Returns (mark_from None rows)
  end.

(** [round(x, 2)] *)
Definition round2 (x : Q) : Q :=
  inject_Z (Metrics.round_half_even (x * 100)) / 100.

(** One row of the result table: [run_results] after
    [run_results.update(performance)].  The keys of a performance record are
    the sixteen metric names, none of which is one of the four parameter
    keys, so the update adds fields and overwrites none. *)
Record SensitivityRun : Type := mkRun {
  ma_period      : Z;
  bb_period      : Z;
  bb_std         : Q;
  drop_threshold : Q;
  performance    : Metrics.PerformanceRecord
}.

Section Harness.

Local Open Scope harness_scope.

(** The generator.  [randbelow k n] is what the [k]-th request returns when
    asked for an integer below [n]; [random k] is what it returns when asked
    for a float in [0, 1). *)
Variable randbelow : nat -> Z -> Z.
Variable random : nat -> Q.

(** The injected capabilities. *)
Variable backtest_func : list PriceBar -> Z -> Z -> Q -> Q -> outcome Frame.
Variable performance_func : list MarkedRow -> outcome Metrics.PerformanceRecord.

(** [random.randint(a, b)]: [a + randbelow(b - a + 1)], [ValueError] when
    the range is empty. *)
Definition randint (range : Z * Z) : M Z :=
  fun k =>
    let '(a, b) := range in
    let width := (b - a + 1)%Z in
    if (0 <? width)%Z then Returns ((a + randbelow k width)%Z, S k)
    else Raises ValueError.

(** [random.uniform(a, b)]: [a + (b - a) * random()]. *)
Definition uniform (range : Q * Q) : M Q :=
  fun k =>
    let '(a, b) := range in
    Returns (a + (b - a) * random k, S k).

(** [[
    while bb_p <= ma_p:
        bb_p = random.randint(lo, hi)    # the 'bb_period' pair
    ]]
    The source puts no bound on the number of passes; [fuel] is how many
    passes are followed before the run is given up as [Diverges]. *)
Fixpoint redraw (fuel : nat) (range : Z * Z) (ma_p bb_p : Z) {struct fuel} : M Z :=
  if (bb_p <=? ma_p)%Z then
    match fuel with
    | O => fun _ => Diverges
    | S fuel' =>
        bb_p' <- randint range ;;
        redraw fuel' range ma_p bb_p'
    end
  else unit_M bb_p.

(** The body of the [for] loop. *)
Definition trial (fuel : nat) (df_original : list PriceBar)
                 (param_ranges : ParamRanges) : M SensitivityRun :=
  ma_p <- randint (ma_period_range param_ranges) ;;
  bb_p <- randint (bb_period_range param_ranges) ;;
  bb_p <- redraw fuel (bb_period_range param_ranges) ma_p bb_p ;;
  bb_s <- uniform (bb_std_range param_ranges) ;;
  drop_t <- uniform (drop_threshold_range param_ranges) ;;
  df_result <- lift_M (backtest_func df_original ma_p bb_p bb_s drop_t) ;;
  df_result <- lift_M (mark_entry_exit df_result) ;;
  performance <- lift_M (performance_func df_result) ;;
  unit_M (mkRun ma_p bb_p (round2 bb_s) (round2 drop_t) performance).

(** [for _ in range(iterations): ... results_list.append(run_results)] *)
Fixpoint trials (fuel : nat) (df_original : list PriceBar)
                (param_ranges : ParamRanges) (n : nat) : M (list SensitivityRun) :=
  match n with
  | O => unit_M []
  | S n' =>
      run_results <- trial fuel df_original param_ranges ;;
      results_list <- trials fuel df_original param_ranges n' ;;
      unit_M (run_results :: results_list)
  end.

Definition sensitivity_analysis (fuel : nat) (df_original : list PriceBar)
    (param_ranges : option ParamRanges) (iterations : Z)
  : outcome (list SensitivityRun) :=
  let param_ranges :=
    match param_ranges with
    | None => default_ranges
    | Some r => r
    end in
  match trials fuel df_original param_ranges (Z.to_nat iterations) O with
  | Returns (results_list, _) => Returns results_list
  | Raises e => Raises e
  | Diverges => Diverges
  end.

End Harness.

(** A generator for concrete runs: the [k]-th request below [n] yields
    [k mod n], the [k]-th float is 1/2. *)
Definition counting_randbelow (k : nat) (n : Z) : Z := (Z.of_nat k mod n)%Z.
Definition half_random (k : nat) : Q := 1 # 2.

(** Strategy two plugged into the harness, the two periods taken from
    [ma_period] and [bb_period]; and the metrics engine reading the frame
    under the two added columns. *)
Definition strategy_two_func (df : list PriceBar) (ma_period bb_period : Z)
                             (bb_std drop_threshold : Q) : outcome Frame :=
  call (backtest_strategy_two sma df ma_period bb_period).

Definition metrics_func (df : list MarkedRow) : outcome Metrics.PerformanceRecord :=
  Returns (Metrics.calculate_strategy_one_performance (map row df)).


(** The value the [k]-th request yields when drawn for [range]. *)
Definition drawn (randbelow : nat -> Z -> Z) (range : Z * Z) (k : nat) : Z :=
  (fst range + randbelow k (snd range - fst range + 1))%Z.

(** The frame of scenario C: one row per trade of the list
    [5, -2, 3, -1, -4, 2]. *)
Definition scenario_C : list Row :=
  map (fun t => mkRow (mkBar 0 0) t 0 0 0) [5; -2; 3; -1; -4; 2].

(* ================================================================== *)
(** ** Statements about trajectories *)
(* ================================================================== *)

(** [m] is the maximum of [f 0 .. f (n-1)]. *)
Definition is_max_over (n : nat) (f : nat -> Q) (m : Q) : Prop :=
  (exists t, (t < n)%nat /\ f t == m) /\
  (forall t, (t < n)%nat -> f t <= m).

Definition equity_at (s : list Q) (t : nat) : Q := nth t s 0.

(** The drawdown in the words of the specification: the maximum, over all
    steps, of the running maximum of the equity up to that step minus the
    equity at that step. *)
Definition is_max_drawdown (s : list Q) (m : Q) : Prop :=
  exists peak : nat -> Q,
    (forall t, (t < length s)%nat -> is_max_over (S t) (equity_at s) (peak t)) /\
    is_max_over (length s) (fun t => peak t - equity_at s t) m.

Definition nondecreasing (s : list Q) : Prop :=
  forall i j, (i <= j < length s)%nat -> equity_at s i <= equity_at s j.

(** *** The realized trades, in the words of the specification *)

(** These definitions read the trajectory row by row and use nothing of the
    engine: the engine is compared with them. *)

(** The winning trades: the realized returns above zero, in row order. *)
Fixpoint realized_gains (rows : list Row) : list Q :=
  match rows with
  | [] => []
  | r :: rest =>
      match Qcompare (ret r) 0 with
      | Gt => ret r :: realized_gains rest
      | _ => realized_gains rest
      end
  end.

(** The losing trades: the realized returns below zero, in row order. *)
Fixpoint realized_losses (rows : list Row) : list Q :=
  match rows with
  | [] => []
  | r :: rest =>
      match Qcompare (ret r) 0 with
      | Lt => ret r :: realized_losses rest
      | _ => realized_losses rest
      end
  end.

(** The total trade count: the rows that realized a return. *)
Fixpoint realized_count (rows : list Row) : nat :=
  match rows with
  | [] => O
  | r :: rest =>
      match Qcompare (ret r) 0 with
      | Eq => realized_count rest
      | _ => S (realized_count rest)
      end
  end.




(** The text that shows [h] hundredths of a percent with two decimals. *)
Definition percent_text (h : Z) : string :=
  (NilZero.string_of_uint (N.to_uint (Z.to_N (h / 100))) ++ "." ++
   (if (h mod 100 <? 10)%Z then "0" else "") ++
   NilZero.string_of_uint (N.to_uint (Z.to_N (h mod 100))) ++ "%")%string.

(** The shape both loop bodies have: the position and cost either come
    unchanged from the previous pass, or a flat state enters at the open of
    the current row; then [settle]. *)
Definition enters_or_keeps (df : list PriceBar)
    (body : nat -> SimState -> SimState * Out) : Prop :=
  forall i st, exists sell,
    body i st
      = settle (iloc df i) (cur_position st) (avg_cost st) (cum_ret st) sell
    \/ (cur_position st = 0%Z /\
        body i st
          = settle (iloc df i) 1 (open_price (iloc df i)) (cum_ret st) sell).

(** What holds between the rows written so far and the loop variables. *)
Record Inv (df : list PriceBar) (pre : list Out) (st : SimState) : Prop := mkInv {
  inv_pos  : cur_position st = 0%Z \/ cur_position st = 1%Z;
  inv_last : last (map o_position pre) 0%Z = cur_position st;
  inv_sum  : cum_ret st == Qsum (map o_ret pre);
  inv_cost : cur_position st = 1%Z ->
             avg_cost st
               = open_price (iloc df (entry_index (map o_position pre)));
  inv_cus  : last (map o_cus pre) 0
             == cum_ret st
                + (if (cur_position st =? 1)%Z
                   then close_price (iloc df (length pre - 1)) - avg_cost st
                   else 0)
}.

(** The equality the invariant gives for the rows alone. *)
Definition equity_split (df : list PriceBar) (outs : list Out) : Prop :=
  last (map o_cus outs) 0
  == Qsum (map o_ret outs)
     + (if (last (map o_position outs) 0 =? 1)%Z
        then close_price (iloc df (length outs - 1))
             - open_price (iloc df (entry_index (map o_position outs)))
        else 0).

(* ================================================================== *)
(** ** Further readings of a trajectory *)
(* ================================================================== *)

(** A row that is flat and carries neither a return nor equity. *)
Definition flat_zero (r : Row) : Prop :=
  ret r = 0 /\ cus r = 0 /\ position r = 0%Z.

(** The row at which the position that is closed, or still held, at row [i]
    was opened: row [i] itself when row [i - 1] ends flat, otherwise the
    first row of the run of 1s that ends at row [i - 1]. *)
Definition entry_row (positions : list Z) (i : nat) : nat :=
  if (nth (i - 1) positions 0 =? 1)%Z then entry_index (firstn i positions)
  else i.

(** The realized returns booked up to row [i], and the unrealized value of
    the position held at the end of row [i]. *)
Definition realized_upto (rows : list Row) (i : nat) : Q :=
  Qsum (filter nonzero (firstn (S i) (map ret rows))).

Definition unrealized_at (rows : list Row) (i : nat) : Q :=
  if (position (nth i rows no_row) =? 1)%Z then
    close_price (bar (nth i rows no_row))
    - open_price
        (bar (nth (entry_index (firstn (S i) (map position rows))) rows no_row))
  else 0.

(** A trajectory laid out on the series [df]: the price columns are those
    of [df], row 0 is flat and zero, every position cell is 0 or 1, and the
    buy-and-hold column is the close minus the first close. *)
Definition laid_out_on (df : list PriceBar) (rows : list Row) : Prop :=
  map bar rows = df /\
  flat_zero (nth 0 rows no_row) /\
  Forall (fun r => position r = 0%Z \/ position r = 1%Z) rows /\
  Forall (fun r => BH r = close_price (bar r) - close_price (iloc df 0)) rows.

(** Every equity cell is the realized returns to date plus the unrealized
    value of the position held. *)
Definition marked_to_market (rows : list Row) : Prop :=
  forall i, (i < length rows)%nat ->
    cus (nth i rows no_row) == realized_upto rows i + unrealized_at rows i.

(** Every non-zero return sits on a row that ends flat and is the close of
    that row minus the open of the row where the position was opened. *)
Definition books_round_trips (df : list PriceBar) (rows : list Row) : Prop :=
  forall i, (i < length rows)%nat ->
    ~ ret (nth i rows no_row) == 0 ->
    position (nth i rows no_row) = 0%Z /\
    (entry_row (map position rows) i <= i)%nat /\
    ret (nth i rows no_row)
      = close_price (iloc df i)
        - open_price (iloc df (entry_row (map position rows) i)).

(** *** Runs of consecutive wins and losses in a trade list *)

(** The [k] trades from index [i] on are all wins, respectively losses. *)
Definition winning_run (trades : list Q) (i k : nat) : Prop :=
  (i + k <= length trades)%nat /\
  forall j, (j < k)%nat -> 0 < nth (i + j) trades 0.

Definition losing_run (trades : list Q) (i k : nat) : Prop :=
  (i + k <= length trades)%nat /\
  forall j, (j < k)%nat -> nth (i + j) trades 0 < 0.

(** [k] is the length of the longest run. *)
Definition longest_run (run : nat -> nat -> Prop) (k : nat) : Prop :=
  (exists i, run i k) /\ forall i k', run i k' -> (k' <= k)%nat.

(** The counters with wins and losses exchanged. *)
Definition swap_sides (s : Metrics.Streaks) : Metrics.Streaks :=
  Metrics.mkStreaks (Metrics.longest_loss s) (Metrics.longest_win s)
                    (Metrics.current_loss s) (Metrics.current_win s).

(** The ranges a call works with: [param_ranges], or the default when it is
    [None]. *)
Definition effective_ranges (param_ranges : option ParamRanges) : ParamRanges :=
  match param_ranges with
  | None => default_ranges
  | Some r => r
  end.

(** Number of rows marked as entries, respectively exits. *)
Definition count_entries (df : list MarkedRow) : nat := length (filter entry df).
Definition count_exits (df : list MarkedRow) : nat := length (filter exit df).

(* ================================================================== *)
(** ** The short summary ([result_F] of [performance_analysis.py]) *)
(* ================================================================== *)

(** A row of the frame [result_F] reads: the result columns and the column
    "sign". *)
Record SignedRow : Type := mkSigned {
  base : Row;
  sign : Q
}.

(** The one-row table it returns. *)
Record Summary : Type := mkSummary {
  last_return  : Q;        (* "最後報酬" *)
  trade_count  : nat;      (* "交易次數" *)
  max_drawdown : pyvalue;  (* "最大回損" *)
  win_ratio    : Q         (* "勝率" *)
}.

(** What [df["cus"].iloc[-1]] raises on an empty column. *)
Inductive index_error : Type := IndexError.

(** [result_F]; its nested [maxdrawdown] is the one of the metrics engine,
    line for line. *)
Definition result_F (df : list SignedRow) : index_error + Summary :=
  match df with
  | [] => inl IndexError
  | _ :: _ =>
      let last := Metrics.iloc_last (map (fun r => cus (base r)) df) in
      let count := length (filter nonzero (map sign df)) in
      let mdd := Metrics.maxdrawdown (map (fun r => cus (base r)) df) in
      let w :=
        match count with
        | O => 0
        | S _ =>
            Qlen (filter (fun x => Qltb 0 x) (map (fun r => ret (base r)) df))
            / inject_Z (Z.of_nat count)
        end in
      inr (mkSummary last count mdd w)
  end.

(* ================================================================== *)
(** ** Lemmas on sums and lists *)
(* ================================================================== *)

Lemma Qltb_lt x y : Qltb x y = true <-> x < y.
Proof.
  unfold Qltb. rewrite negb_true_iff.
  split; intro H.
  - apply Qnot_le_lt. intro Hle. apply Qle_bool_iff in Hle. congruence.
  - destruct (Qle_bool y x) eqn:E; [|reflexivity].
    apply Qle_bool_iff in E. exfalso. apply (Qlt_not_le _ _ H E).
Qed.

Lemma Qltb_ge x y : Qltb x y = false <-> y <= x.
Proof.
  unfold Qltb. rewrite negb_false_iff. apply Qle_bool_iff.
Qed.

Lemma nonzero_true x : nonzero x = true <-> ~ x == 0.
Proof.
  unfold nonzero. rewrite negb_true_iff. split; intro H.
  - now apply Qeq_bool_neq.
  - destruct (Qeq_bool x 0) eqn:E; [|reflexivity].
    apply Qeq_bool_iff in E. contradiction.
Qed.

Lemma nonzero_false x : nonzero x = false <-> x == 0.
Proof.
  unfold nonzero. rewrite negb_false_iff. apply Qeq_bool_iff.
Qed.

Lemma fold_Qplus_acc l : forall a, fold_left Qplus l a == a + Qsum l.
Proof.
  unfold Qsum. induction l as [|x l IH]; intro a; simpl.
  - ring.
  - rewrite (IH (a + x)), (IH (0 + x)). ring.
Qed.

Lemma Qsum_cons x l : Qsum (x :: l) == x + Qsum l.
Proof.
  unfold Qsum at 1. simpl. rewrite fold_Qplus_acc. ring.
Qed.

Lemma Qsum_snoc l x : Qsum (l ++ [x]) = Qsum l + x.
Proof.
  unfold Qsum. now rewrite fold_left_app.
Qed.

Lemma Qsum_filter_nonzero l : Qsum (filter nonzero l) == Qsum l.
Proof.
  induction l as [|x l IH]; simpl; [reflexivity|].
  destruct (nonzero x) eqn:E.
  - rewrite !Qsum_cons, IH. reflexivity.
  - apply nonzero_false in E. rewrite Qsum_cons, IH, E. ring.
Qed.

Lemma leading_ones_le l : (leading_ones l <= length l)%nat.
Proof.
  induction l as [|p l IH]; simpl; [lia|].
  destruct (p =? 1)%Z; lia.
Qed.

Lemma entry_index_enter ps :
  last ps 0%Z = 0%Z -> entry_index (ps ++ [1%Z]) = length ps.
Proof.
  intro H. unfold entry_index.
  rewrite rev_app_distr, length_app. simpl.
  destruct ps as [|p ps] using rev_ind; simpl; [reflexivity|].
  rewrite last_last in H. subst p.
  rewrite rev_app_distr. simpl. lia.
Qed.

Lemma entry_index_hold ps :
  last ps 0%Z = 1%Z -> entry_index (ps ++ [1%Z]) = entry_index ps.
Proof.
  intros _. unfold entry_index.
  rewrite rev_app_distr, length_app. simpl.
  pose proof (leading_ones_le (rev ps)) as H. rewrite length_rev in H. lia.
Qed.

Lemma loop_length body n : forall i st, length (loop body n i st) = n.
Proof.
  induction n as [|n IH]; intros i st; simpl; [reflexivity|].
  destruct (body i st) as [st' o]. simpl. now rewrite IH.
Qed.

Section Assemble.

Variable df : list PriceBar.
Variable outs : list Out.
Hypothesis same_length : length outs = length df.

Lemma assemble_length : length (assemble df outs) = length df.
Proof.
  unfold assemble. rewrite length_map, length_combine. lia.
Qed.

Lemma assemble_ret : map ret (assemble df outs) = map o_ret outs.
Proof.
  unfold assemble. rewrite map_map. simpl.
  rewrite <- (map_map snd o_ret). f_equal.
  revert same_length. generalize outs. clear.
  induction df as [|b t IH]; intros [|o os] H; simpl in *;
    try reflexivity; try discriminate.
  f_equal. apply IH. lia.
Qed.

Lemma assemble_position : map position (assemble df outs) = map o_position outs.
Proof.
  unfold assemble. rewrite map_map. simpl.
  rewrite <- (map_map snd o_position). f_equal.
  revert same_length. generalize outs. clear.
  induction df as [|b t IH]; intros [|o os] H; simpl in *;
    try reflexivity; try discriminate.
  f_equal. apply IH. lia.
Qed.

Lemma assemble_nth k :
  (k < length df)%nat ->
  let r := nth k (assemble df outs) no_row in
  bar r = iloc df k /\ ret r = o_ret (nth k outs init_out) /\
  cus r = o_cus (nth k outs init_out) /\
  position r = o_position (nth k outs init_out).
Proof.
  intros Hk. unfold assemble, iloc.
  set (f := fun p : PriceBar * Out => _).
  assert (Hlen : (k < length (map f (combine df outs)))%nat)
    by (rewrite length_map, length_combine; lia).
  simpl.
  rewrite (nth_indep _ no_row (f (mkBar 0 0, init_out)) Hlen), map_nth.
  rewrite combine_nth by (symmetry; exact same_length).
  unfold f. simpl. repeat split.
Qed.

End Assemble.

Lemma last_nth {A} (l : list A) d : last l d = nth (length l - 1) l d.
Proof.
  induction l as [|x l IH]; simpl; [reflexivity|].
  destruct l as [|y l]; [reflexivity|].
  rewrite IH. simpl. now rewrite Nat.sub_0_r.
Qed.

(* ================================================================== *)
(** ** The simulation loop keeps the books *)
(* ================================================================== *)

Section LoopInvariant.

Variable df : list PriceBar.
Variable body : nat -> SimState -> SimState * Out.

Hypothesis body_shape : enters_or_keeps df body.

Lemma Inv_init : Inv df [init_out] init_state.
Proof.
  constructor; simpl; try reflexivity.
  - now left.
  - discriminate.
Qed.

Lemma snoc_index (pre : list Out) (o : Out) :
  (length (pre ++ [o]) - 1 = length pre)%nat.
Proof. rewrite length_app. simpl. lia. Qed.

Ltac snoc_simpl :=
  simpl; rewrite ?map_app; simpl; rewrite ?last_last, ?Qsum_snoc; simpl.

Lemma Inv_step pre st st' o :
  Inv df pre st -> body (length pre) st = (st', o) -> Inv df (pre ++ [o]) st'.
Proof.
  intros [Hpos Hlast Hsum Hcost Hcus] Hbody.
  destruct (body_shape (length pre) st) as [sell [E | [Hflat E]]];
    rewrite E in Hbody; clear E; unfold settle in Hbody.
  - (* no entry on this pass *)
    destruct Hpos as [Hp | Hp]; rewrite Hp in *; simpl in Hbody.
    + inversion Hbody; subst; clear Hbody.
      constructor; snoc_simpl.
      * now left.
      * reflexivity.
      * rewrite Hsum. ring.
      * discriminate.
      * ring.
    + destruct sell; simpl in Hbody; inversion Hbody; subst; clear Hbody;
        constructor; snoc_simpl.
      * now left.
      * reflexivity.
      * rewrite Hsum. ring.
      * discriminate.
      * ring.
      * now right.
      * reflexivity.
      * rewrite Hsum. ring.
      * intros _. rewrite entry_index_hold by exact Hlast. now apply Hcost.
      * rewrite snoc_index. ring.
  - (* entry at the open of this row *)
    destruct sell; simpl in Hbody; inversion Hbody; subst; clear Hbody;
      constructor; snoc_simpl.
    + now left.
    + reflexivity.
    + rewrite Hsum. ring.
    + discriminate.
    + ring.
    + now right.
    + reflexivity.
    + rewrite Hsum. ring.
    + intros _. rewrite entry_index_enter by (now rewrite Hlast).
      now rewrite length_map.
    + rewrite snoc_index. ring.
Qed.

Lemma Inv_equity_split pre st : Inv df pre st -> equity_split df pre.
Proof.
  intros [Hpos Hlast Hsum Hcost Hcus]. unfold equity_split.
  rewrite Hcus, Hlast, Hsum.
  destruct Hpos as [Hp | Hp]; rewrite Hp; simpl.
  - reflexivity.
  - rewrite <- (Hcost Hp). reflexivity.
Qed.

Lemma loop_Inv n : forall pre st,
  Inv df pre st ->
  exists st', Inv df (pre ++ loop body n (length pre) st) st'.
Proof.
  induction n as [|n IH]; intros pre st HI; simpl.
  - exists st. now rewrite app_nil_r.
  - destruct (body (length pre) st) as [st1 o] eqn:E.
    pose proof (Inv_step _ _ _ _ HI E) as HI1.
    destruct (IH _ _ HI1) as [st' H'].
    exists st'. rewrite length_app in H'. simpl in H'.
    rewrite Nat.add_1_r in H'. now rewrite <- app_assoc in H'.
Qed.

Lemma loop_equity_split n :
  equity_split df (init_out :: loop body n 1 init_state).
Proof.
  destruct (loop_Inv n [init_out] init_state Inv_init) as [st' H].
  exact (Inv_equity_split _ _ H).
Qed.

(** The same equality on the assembled frame. *)
Lemma assemble_equity n :
  length df = S n ->
  let rows := assemble df (init_out :: loop body n 1 init_state) in
  cus (last rows no_row) == Qsum (Metrics.trades_of rows) + unrealized rows.
Proof.
  intros HL rows. subst rows.
  set (outs := init_out :: loop body n 1 init_state) in *.
  assert (Hlen : length outs = length df)
    by (unfold outs; simpl; rewrite loop_length; lia).
  pose proof (loop_equity_split n) as H. fold outs in H.
  unfold equity_split in H.
  pose proof (assemble_length df outs Hlen) as Hrows.
  assert (Hlast : (length df - 1 < length df)%nat) by lia.
  destruct (assemble_nth df outs Hlen _ Hlast) as (Hb & _ & Hc & Hp).
  unfold Metrics.trades_of, unrealized.
  rewrite Qsum_filter_nonzero.
  rewrite (last_nth (assemble df outs)), Hrows, Hb, Hc, Hp.
  rewrite assemble_ret, assemble_position by exact Hlen.
  rewrite !last_nth, !length_map, Hlen in H.
  rewrite (nth_indep _ 0 (o_cus init_out)), map_nth in H
    by (rewrite length_map; lia).
  rewrite (nth_indep _ 0%Z (o_position init_out)), map_nth in H
    by (rewrite length_map; lia).
  rewrite H.
  destruct (o_position (nth (length df - 1) outs init_out) =? 1)%Z eqn:Ep;
    [|reflexivity].
  assert (Hk : (entry_index (map o_position outs) < length df)%nat).
  { unfold entry_index. rewrite length_map, Hlen.
    assert (1 <= leading_ones (rev (map o_position outs)))%nat; [|lia].
    rewrite <- (rev_involutive outs) in Ep.
    rewrite <- map_rev.
    rewrite rev_nth in Ep by (rewrite length_rev; lia).
    rewrite length_rev, Hlen in Ep.
    replace (length df - S (length df - 1))%nat with 0%nat in Ep by lia.
    destruct (rev outs) as [|o os] eqn:Er.
    - apply (f_equal (@length Out)) in Er. rewrite length_rev in Er.
      simpl in Er. lia.
    - simpl in *. rewrite Ep. lia. }
  destruct (assemble_nth df outs Hlen _ Hk) as (Hb' & _).
  rewrite Hb'. reflexivity.
Qed.

End LoopInvariant.

(* ================================================================== *)
(** ** The strategy simulators *)
(* ================================================================== *)

Section SimulatorFacts.

Variable calc_ma : list PriceBar -> Z -> list cell.

Lemma body_two_shape df short_ma long_ma :
  enters_or_keeps df (body_two df short_ma long_ma).
Proof.
  intros i st.
  exists (below_short_ma df short_ma i).
  unfold body_two.
  destruct (cur_position st =? 0)%Z eqn:E0; simpl; [|now left].
  destruct (1 <? i)%nat; simpl; [|now left].
  destruct (is_golden_cross short_ma long_ma i); [|now left].
  right. split; [now apply Z.eqb_eq | reflexivity].
Qed.

Lemma body_three_shape df short_ma medium_ma long_ma :
  enters_or_keeps df (body_three df short_ma medium_ma long_ma).
Proof.
  intros i st.
  exists (short_below_medium short_ma medium_ma i).
  unfold body_three.
  destruct (cur_position st =? 0)%Z eqn:E0; simpl; [|now left].
  destruct (is_bullish_alignment short_ma medium_ma long_ma i); [|now left].
  right. split; [now apply Z.eqb_eq | reflexivity].
Qed.

(** On fewer than two rows both simulators leave through the early
    [return df], before any result column is created. *)
Lemma short_series_early_return df :
  (length df < 2)%nat ->
  (forall s l, backtest_strategy_two calc_ma df s l = Bare df) /\
  (forall s m l, backtest_strategy_three calc_ma df s m l = Bare df).
Proof.
  intro H. apply Nat.ltb_lt in H.
  split; intros; unfold backtest_strategy_two, backtest_strategy_three;
    now rewrite H.
Qed.

(** On two rows or more both run the loop and return one result row per
    input row. *)
Lemma long_series_full df :
  (2 <= length df)%nat ->
  (forall s l, exists rows,
      backtest_strategy_two calc_ma df s l = Full rows /\
      length rows = length df) /\
  (forall s m l, exists rows,
      backtest_strategy_three calc_ma df s m l = Full rows /\
      length rows = length df).
Proof.
  intro H.
  assert (E : (length df <? 2)%nat = false) by (apply Nat.ltb_ge; lia).
  split; intros; unfold backtest_strategy_two, backtest_strategy_three;
    rewrite E; eexists; (split; [reflexivity|]);
    apply assemble_length; simpl; rewrite loop_length; lia.
Qed.

End SimulatorFacts.

(** C5.  For every series of at least two rows, for every indicator
    transform and every choice of periods, each simulator returns a
    trajectory whose equity at the last row equals the sum of the non-zero
    realized trade returns plus the unrealized value of the position held
    at the last row (last close minus the open of its entry row), or plus
    zero when the last position is flat. *)
Theorem final_equity_decomposition
    (calc_ma : list PriceBar -> Z -> list cell) (df : list PriceBar) :
  (2 <= length df)%nat ->
  (forall s l, exists rows,
      backtest_strategy_two calc_ma df s l = Full rows /\
      length rows = length df /\
      cus (last rows no_row) == Qsum (Metrics.trades_of rows) + unrealized rows) /\
  (forall s m l, exists rows,
      backtest_strategy_three calc_ma df s m l = Full rows /\
      length rows = length df /\
      cus (last rows no_row) == Qsum (Metrics.trades_of rows) + unrealized rows).
Proof.
  intro H.
  assert (E : (length df <? 2)%nat = false) by (apply Nat.ltb_ge; lia).
  assert (HL : length df = S (length df - 1)) by lia.
  split; intros; unfold backtest_strategy_two, backtest_strategy_three;
    rewrite E; eexists; (split; [reflexivity|]); split.
  - apply assemble_length. simpl. rewrite loop_length. lia.
  - apply assemble_equity; [apply body_two_shape | exact HL].
  - apply assemble_length. simpl. rewrite loop_length. lia.
  - apply assemble_equity; [apply body_three_shape | exact HL].
Qed.

(** The decomposition on a rising six-row series, where strategy three
    (periods 1, 2, 3) enters at row 3 and still holds at the last row. *)
Lemma final_equity_decomposition_witness :
  let df := bars [1; 2; 3; 3; 4; 5] [1; 2; 3; 4; 5; 6] in
  exists rows,
    backtest_strategy_three sma df 1 2 3 = Full rows /\
    length rows = length df /\
    cus (last rows no_row) == Qsum (Metrics.trades_of rows) + unrealized rows.
Proof.
  intro df.
  assert (H : (2 <= length df)%nat) by (vm_compute; lia).
  exact (proj2 (final_equity_decomposition sma df H) 1%Z 2%Z 3%Z).
Defined.

(** C2, counterexample.  Strategy two called with short period 2 and long
    period 1 on a four-row series raises nothing: it runs the loop, enters
    at row 3 and books a trade of 3 there. *)
Lemma inverted_periods_are_simulated :
  let df := bars [1; 3; 1; 0] [1; 3; 1; 3] in
  call (backtest_strategy_two sma df 2 1) <> Raises ConfigurationError /\
  exists rows,
    call (backtest_strategy_two sma df 2 1) = Returns (Full rows) /\
    ret (nth 3 rows no_row) == 3.
Proof.
  split; [discriminate|].
  eexists. split; [vm_compute; reflexivity|].
  vm_compute. reflexivity.
Qed.

(** C2, amended.  The simulators do not look at the order of the periods:
    for every series of at least two rows and every choice of periods, in
    particular with the short period greater than or equal to the longer
    ones, the call raises no error and returns a trajectory with one row
    per input row. *)
Theorem periods_are_not_validated
    (calc_ma : list PriceBar -> Z -> list cell) (df : list PriceBar) :
  (2 <= length df)%nat ->
  (forall short long, exists rows,
      call (backtest_strategy_two calc_ma df short long) = Returns (Full rows) /\
      length rows = length df) /\
  (forall short medium long, exists rows,
      call (backtest_strategy_three calc_ma df short medium long)
        = Returns (Full rows) /\
      length rows = length df).
Proof.
  intro H. destruct (long_series_full calc_ma df H) as [H2 H3].
  split; intros.
  - destruct (H2 short long) as (rows & E & L). exists rows. unfold call.
    now rewrite E.
  - destruct (H3 short medium long) as (rows & E & L). exists rows. unfold call.
    now rewrite E.
Qed.

(** Strategy three with periods 20, 10, 5 on a four-row series. *)
Lemma periods_are_not_validated_witness :
  let df := bars [1; 3; 1; 0] [1; 3; 1; 3] in
  (2 <= length df)%nat /\
  exists rows,
    call (backtest_strategy_three sma df 20 10 5) = Returns (Full rows) /\
    length rows = length df.
Proof.
  intro df.
  assert (H : (2 <= length df)%nat) by (vm_compute; lia).
  split; [exact H|].
  exact (proj2 (periods_are_not_validated sma df H) 20%Z 10%Z 5%Z).
Defined.

(** C3, the code at the failing input.  Given a one-row series, both
    simulators return the frame as it is after the indicator columns were
    added: it has no "ret", "cus" or "position" column, so its row carries
    no position state, no realized return and no equity value. *)
Example one_row_series_has_no_result_columns :
  let df := [mkBar 10 10] in
  backtest_strategy_two sma df 5 20 = Bare df /\
  backtest_strategy_three sma df 3 5 10 = Bare df /\
  mark_entry_exit (backtest_strategy_two sma df 5 20) = Raises KeyError.
Proof.
  repeat split.
Qed.

(** C10.  Both strategies can enter and exit within one step.  For strategy
    three (periods 1, 2, 3) and for strategy two (periods 1, 2), on the
    series given here, the position is flat at the end of row 2; at row 3 the
    entry signal holds and opens a position at the open of row 3, the exit
    test of row 3 holds as well and closes it at the close of row 3: the
    return booked at row 3 is close[3] - open[3], which is not zero, and the
    state recorded at row 3 is flat. *)
Theorem same_step_entry_and_exit :
  (exists df t rows,
      backtest_strategy_three sma df 1 2 3 = Full rows /\
      position (nth (t - 1) rows no_row) = 0%Z /\
      is_bullish_alignment (sma df 1) (sma df 2) (sma df 3) t = true /\
      short_below_medium (sma df 1) (sma df 2) t = true /\
      ret (nth t rows no_row)
        == close_price (iloc df t) - open_price (iloc df t) /\
      ~ ret (nth t rows no_row) == 0 /\
      position (nth t rows no_row) = 0%Z) /\
  (exists df t rows,
      backtest_strategy_two sma df 1 2 = Full rows /\
      position (nth (t - 1) rows no_row) = 0%Z /\
      is_golden_cross (sma df 1) (sma df 2) t = true /\
      below_short_ma df (sma df 1) t = true /\
      ret (nth t rows no_row)
        == close_price (iloc df t) - open_price (iloc df t) /\
      ~ ret (nth t rows no_row) == 0 /\
      position (nth t rows no_row) = 0%Z).
Proof.
  split.
  - exists (bars [1; 2; 3; 3] [1; 2; 3; 1]), 3%nat. eexists.
    split; [vm_compute; reflexivity|].
    repeat split; try (vm_compute; reflexivity).
    vm_compute. discriminate.
  - exists (bars [3; 1; 5; 1] [3; 1; 5; 3]), 3%nat. eexists.
    split; [vm_compute; reflexivity|].
    repeat split; try (vm_compute; reflexivity).
    vm_compute. discriminate.
Qed.

(* ================================================================== *)
(** ** The metrics engine: drawdown *)
(* ================================================================== *)

Lemma is_max_over_ext n f g m :
  (forall t, (t < n)%nat -> f t == g t) -> is_max_over n f m -> is_max_over n g m.
Proof.
  intros E [[t [Ht Hm]] Hle]. split.
  - exists t. split; [exact Ht|]. now rewrite <- (E t Ht).
  - intros u Hu. rewrite <- (E u Hu). now apply Hle.
Qed.

(** The left fold of [Qmax] returns the largest element. *)
Lemma fold_max_is_max t : forall x,
  is_max_over (length (x :: t)) (equity_at (x :: t)) (fold_left Qmax t x).
Proof.
  induction t as [|a t IH]; intro x.
  - split.
    + exists 0%nat. split; [simpl; lia | reflexivity].
    + intros [|u] Hu; simpl in *; [apply Qle_refl | lia].
  - simpl fold_left. destruct (IH (Qmax x a)) as [[u [Hu Hm]] Hle]. split.
    + destruct u as [|u].
      * unfold equity_at in Hm. simpl in Hm.
        destruct (Q.max_spec x a) as [[_ E] | [_ E]].
        -- exists 1%nat. split; [simpl; lia|].
           unfold equity_at. simpl. now rewrite <- Hm, E.
        -- exists 0%nat. split; [simpl; lia|].
           unfold equity_at. simpl. now rewrite <- Hm, E.
      * exists (S (S u)). split; [simpl in *; lia | exact Hm].
    + intros [|[|v]] Hv; unfold equity_at; simpl.
      * apply Qle_trans with (Qmax x a); [apply Q.le_max_l|].
        apply (Hle 0%nat). simpl. lia.
      * apply Qle_trans with (Qmax x a); [apply Q.le_max_r|].
        apply (Hle 0%nat). simpl. lia.
      * apply (Hle (S v)). simpl in *. lia.
Qed.

Lemma cummax_from_length s : forall m,
  length (Metrics.cummax_from m s) = length s.
Proof.
  induction s as [|a s IH]; intro m; simpl; [reflexivity | now rewrite IH].
Qed.

Lemma cummax_length s : length (Metrics.cummax s) = length s.
Proof.
  destruct s; simpl; [reflexivity | now rewrite cummax_from_length].
Qed.

(** Cell [k] of the running maximum started at [m]: the largest of [m] and
    the first [k + 1] cells. *)
Lemma cummax_from_nth s : forall m k,
  (k < length s)%nat ->
  let c := nth k (Metrics.cummax_from m s) 0 in
  (m <= c /\ forall j, (j <= k)%nat -> nth j s 0 <= c) /\
  (c == m \/ exists j, (j <= k)%nat /\ nth j s 0 == c).
Proof.
  induction s as [|a s IH]; intros m k Hk; simpl in Hk; [lia|].
  destruct k as [|k]; simpl.
  - split.
    + split; [apply Q.le_max_l|].
      intros j Hj. replace j with 0%nat by lia. apply Q.le_max_r.
    + destruct (Q.max_spec m a) as [[_ E] | [_ E]].
      * right. exists 0%nat. split; [lia | now rewrite E].
      * now left.
  - destruct (IH (Qmax m a) k ltac:(lia)) as [[Hm Hall] Hex]. split.
    + split.
      * apply Qle_trans with (Qmax m a); [apply Q.le_max_l | exact Hm].
      * intros [|j] Hj.
        -- apply Qle_trans with (Qmax m a); [apply Q.le_max_r | exact Hm].
        -- apply Hall. lia.
    + destruct Hex as [E | [j [Hj E]]].
      * destruct (Q.max_spec m a) as [[_ E'] | [_ E']].
        -- right. exists 0%nat. split; [lia | now rewrite E, E'].
        -- left. now rewrite E, E'.
      * right. exists (S j). split; [lia | exact E].
Qed.

Lemma cummax_is_running_max s t :
  (t < length s)%nat ->
  is_max_over (S t) (equity_at s) (nth t (Metrics.cummax s) 0).
Proof.
  destruct s as [|x s]; simpl; [lia|]. intro Ht.
  destruct t as [|k].
  - split.
    + exists 0%nat. split; [lia | reflexivity].
    + intros u Hu. replace u with 0%nat by lia. apply Qle_refl.
  - destruct (cummax_from_nth s x k ltac:(lia)) as [[Hm Hall] Hex]. split.
    + destruct Hex as [E | [j [Hj E]]].
      * exists 0%nat. split; [lia|]. unfold equity_at. simpl. now rewrite E.
      * exists (S j). split; [lia | exact E].
    + intros [|u] Hu; unfold equity_at; simpl; [exact Hm|].
      apply Hall. lia.
Qed.

Lemma series_sub_nth a b t :
  length a = length b -> (t < length a)%nat ->
  nth t (Metrics.series_sub a b) 0 = nth t a 0 - nth t b 0.
Proof.
  intros HL Ht. unfold Metrics.series_sub.
  set (f := fun p : Q * Q => fst p - snd p).
  assert (Hlen : (t < length (map f (combine a b)))%nat)
    by (rewrite length_map, length_combine; lia).
  rewrite (nth_indep _ 0 (f (0, 0)) Hlen), map_nth, combine_nth by exact HL.
  reflexivity.
Qed.

Lemma series_sub_length a b :
  length a = length b -> length (Metrics.series_sub a b) = length a.
Proof.
  intro HL. unfold Metrics.series_sub. rewrite length_map, length_combine. lia.
Qed.

(** On a non-empty series the source computes the drawdown of the
    specification. *)
Lemma maxdrawdown_is_max_drawdown s :
  s <> [] -> exists m, Metrics.maxdrawdown s = Fin m /\ is_max_drawdown s m.
Proof.
  intro Hne. unfold Metrics.maxdrawdown.
  pose proof (cummax_length s) as HL.
  pose proof (series_sub_length _ _ HL) as HD.
  destruct (Metrics.series_sub (Metrics.cummax s) s) as [|d ds] eqn:E.
  - destruct s; [contradiction | simpl in *; rewrite HL in HD; discriminate].
  - exists (fold_left Qmax ds d). split; [reflexivity|].
    exists (fun t => nth t (Metrics.cummax s) 0). split.
    + intros t Ht. now apply cummax_is_running_max.
    + pose proof (fold_max_is_max ds d) as HM. rewrite HD, HL in HM.
      eapply is_max_over_ext; [|exact HM].
      intros t Ht. unfold equity_at at 1. rewrite <- E.
      rewrite series_sub_nth by (rewrite ?HL; lia). reflexivity.
Qed.

(** A maximum drawdown is never negative. *)
Lemma is_max_drawdown_nonneg s m : is_max_drawdown s m -> 0 <= m.
Proof.
  intros [peak [Hpeak [[t [Ht Em]] _]]].
  destruct (Hpeak t Ht) as [_ Hle].
  specialize (Hle t ltac:(lia)).
  rewrite <- Em. lra.
Qed.

(** It is zero on a series that never falls. *)
Lemma is_max_drawdown_flat s m :
  is_max_drawdown s m -> nondecreasing s -> m == 0.
Proof.
  intros H Hmono. pose proof (is_max_drawdown_nonneg s m H) as Hge.
  destruct H as [peak [Hpeak [[t [Ht Em]] _]]].
  destruct (Hpeak t Ht) as [[j [Hj Ej]] _].
  assert (equity_at s j <= equity_at s t) by (apply Hmono; lia).
  lra.
Qed.

Lemma mdd_field df :
  Metrics.mdd (Metrics.calculate_strategy_one_performance df)
  = Metrics.maxdrawdown (map cus df).
Proof.
  unfold Metrics.calculate_strategy_one_performance.
  destruct (length (Metrics.trades_of df)); reflexivity.
Qed.




(* ================================================================== *)
(** ** The metrics engine: trade statistics *)
(* ================================================================== *)

Lemma trades_nonzero df t : In t (Metrics.trades_of df) -> ~ t == 0.
Proof.
  unfold Metrics.trades_of. intro H. apply filter_In in H.
  now apply nonzero_true.
Qed.

Lemma In_winning t trades : In t (Metrics.winning trades) <-> In t trades /\ 0 < t.
Proof.
  unfold Metrics.winning. rewrite filter_In. now rewrite Qltb_lt.
Qed.

Lemma In_losing t trades : In t (Metrics.losing trades) <-> In t trades /\ t < 0.
Proof.
  unfold Metrics.losing. rewrite filter_In. now rewrite Qltb_lt.
Qed.

Lemma Qlen_pos l : l <> [] -> 0 < Qlen l.
Proof.
  destruct l as [|x l]; [contradiction|]. intros _.
  unfold Qlen, Qlt. simpl. lia.
Qed.

Lemma Qlen_filter_le f l : Qlen (filter f l) <= Qlen l.
Proof.
  unfold Qlen. rewrite <- Zle_Qle. apply Nat2Z.inj_le.
  induction l as [|x l IH]; simpl; [lia|].
  destruct (f x); simpl; lia.
Qed.

Lemma Qlen_nonneg l : 0 <= Qlen l.
Proof.
  unfold Qlen, Qle. simpl. lia.
Qed.

Lemma Qsum_negative l :
  l <> [] -> (forall t, In t l -> t < 0) -> Qsum l < 0.
Proof.
  induction l as [|x l IH]; [contradiction|]. intros _ Hneg.
  rewrite Qsum_cons.
  assert (Hx : x < 0) by (apply Hneg; now left).
  destruct l as [|y l].
  - unfold Qsum. simpl. lra.
  - assert (Qsum (y :: l) < 0).
    { apply IH; [discriminate|]. intros t Ht. apply Hneg. now right. }
    lra.
Qed.

Lemma mean_negative l :
  l <> [] -> (forall t, In t l -> t < 0) -> Qsum l / Qlen l < 0.
Proof.
  intros Hne Hneg.
  pose proof (Qsum_negative l Hne Hneg) as Hs.
  pose proof (Qlen_pos l Hne) as Hn.
  apply Qlt_shift_div_r; [exact Hn | lra].
Qed.

Lemma ratio_in_unit_interval a b : 0 <= a -> a <= b -> 0 < b -> 0 <= a / b <= 1.
Proof.
  intros Ha Hab Hb. split.
  - apply Qle_shift_div_l; [exact Hb | lra].
  - apply Qle_shift_div_r; [exact Hb | lra].
Qed.

(** The record returned when there is no realized trade. *)
Lemma performance_without_trades df :
  Metrics.trades_of df = [] ->
  let r := Metrics.calculate_strategy_one_performance df in
  Metrics.total_trades r = 0%nat /\
  Metrics.win_rate r = Str "0.00%" /\
  Metrics.profit_loss_ratio r = Fin 0.
Proof.
  intro H. unfold Metrics.calculate_strategy_one_performance.
  rewrite H. simpl. repeat split.
Qed.

(** The trade-derived fields returned when there is at least one. *)
Lemma performance_with_trades df :
  Metrics.trades_of df <> [] ->
  let r := Metrics.calculate_strategy_one_performance df in
  let trades := Metrics.trades_of df in
  let W := Metrics.winning trades in
  let L := Metrics.losing trades in
  Metrics.total_trades r = length trades /\
  Metrics.num_winning_trades r = length W /\
  Metrics.num_losing_trades r = length L /\
  Metrics.win_rate r
    = Str (Metrics.format_percent2
             (Metrics.round_binary64 (Qlen W / Qlen trades))) /\
  Metrics.avg_profit r = match W with [] => 0 | _ => Qsum W / Qlen W end /\
  Metrics.avg_loss r = match L with [] => 0 | _ => Qsum L / Qlen L end /\
  Metrics.profit_loss_ratio r
    = match L with
      | [] => Inf
      | _ =>
          let avg_loss_f := float_div (as_float (Qsum L)) (F (Qlen L)) in
          if float_is_zero avg_loss_f then Inf
          else float_abs
                 (float_div
                    (match W with
                     | [] => F 0
                     | _ => float_div (as_float (Qsum W)) (F (Qlen W))
                     end)
                    avg_loss_f)
      end.
Proof.
  intro H. unfold Metrics.calculate_strategy_one_performance.
  destruct (Metrics.trades_of df) as [|t ts] eqn:E; [contradiction|].
  cbv zeta. simpl length at 1. cbv iota beta.
  generalize (Metrics.winning (t :: ts)) as W.
  generalize (Metrics.losing (t :: ts)) as L.
  intros L W. repeat split; simpl.
  - now destruct W.
  - now destruct L.
  - destruct L as [|l L]; [reflexivity|]. now destruct W.
Qed.

(** *** The engine's trade lists are the realized trades of the rows *)

Lemma nonzero_compare x :
  nonzero x = match Qcompare x 0 with Eq => false | _ => true end.
Proof.
  unfold nonzero, Qeq_bool, Qcompare. rewrite Z.eqb_compare.
  now destruct (Z.compare _ _).
Qed.

Lemma Qltb_compare x y :
  Qltb x y = match Qcompare x y with Lt => true | _ => false end.
Proof.
  unfold Qltb, Qle_bool, Qcompare. rewrite <- Z.ltb_antisym.
  unfold Z.ltb. now destruct (Z.compare _ _).
Qed.

Lemma winning_trades_of rows :
  Metrics.winning (Metrics.trades_of rows) = realized_gains rows.
Proof.
  unfold Metrics.trades_of, Metrics.winning.
  induction rows as [|r rest IH]; [reflexivity|].
  cbn [map filter realized_gains]. rewrite nonzero_compare.
  pose proof (Qcompare_antisym (ret r) 0) as Hs.
  destruct (Qcompare (ret r) 0) eqn:E; [exact IH | |];
    cbn [filter]; rewrite Qltb_compare, <- Hs; cbn [CompOpp];
    [exact IH | now rewrite IH].
Qed.


Lemma length_trades_of rows :
  length (Metrics.trades_of rows) = realized_count rows.
Proof.
  unfold Metrics.trades_of.
  induction rows as [|r rest IH]; [reflexivity|].
  cbn [map filter realized_count]. rewrite nonzero_compare.
  destruct (Qcompare (ret r) 0); cbn [length]; now rewrite IH.
Qed.

Lemma realized_count_split rows :
  realized_count rows
    = (length (realized_gains rows) + length (realized_losses rows))%nat.
Proof.
  induction rows as [|r rest IH]; [reflexivity|].
  cbn [realized_count realized_gains realized_losses].
  destruct (Qcompare (ret r) 0); cbn [length]; rewrite IH; lia.
Qed.







(** *** Sums and quotients at the edge of the finite range *)






















(** *** Rounding to the nearest double *)

Lemma round_half_even_near y :
  y - (1 # 2) <= inject_Z (Metrics.round_half_even y) <= y + (1 # 2).
Proof.
  unfold Metrics.round_half_even.
  pose proof (Qfloor_le y) as Hlo. pose proof (Qlt_floor y) as Hhi.
  rewrite inject_Z_plus in Hhi. change (inject_Z 1) with 1 in Hhi.
  cbv zeta.
  destruct (Qcompare (y - inject_Z (Qfloor y)) (1 # 2)) eqn:E.
  - apply Qeq_alt in E.
    destruct (Z.even (Qfloor y));
      rewrite ?inject_Z_plus; change (inject_Z 1) with 1; split; lra.
  - apply Qlt_alt in E. split; lra.
  - apply Qgt_alt in E.
    rewrite inject_Z_plus. change (inject_Z 1) with 1. split; lra.
Qed.

Lemma round_half_even_nonneg y : 0 <= y -> (0 <= Metrics.round_half_even y)%Z.
Proof.
  intro Hy. unfold Metrics.round_half_even. cbv zeta.
  assert (Hf : (0 <= Qfloor y)%Z).
  { change 0%Z with (Qfloor 0). now apply Qfloor_resp_le. }
  destruct (Qcompare _ _); [destruct (Z.even _)| |]; lia.
Qed.

Lemma two_power_pos k : 0 < 2 ^ k.
Proof. apply Qpower_0_lt. reflexivity. Qed.

(** [floor_log2] does not overshoot. *)
Lemma floor_log2_le x : 0 < x -> 2 ^ Metrics.floor_log2 x <= x.
Proof.
  intro Hx. unfold Metrics.floor_log2. cbv zeta.
  set (l := (Z.log2 (Qnum x) - Z.log2 (Z.pos (Qden x)))%Z).
  destruct (Qle_bool (2 ^ l) x) eqn:E; [now apply Qle_bool_iff|].
  destruct x as [n d]. cbn [Qnum Qden] in *.
  assert (Hn : (0 < n)%Z).
  { unfold Qlt in Hx. cbn in Hx. lia. }
  destruct (Z.log2_spec n Hn) as [Hn1 _].
  destruct (Z.log2_spec (Z.pos d) (Pos2Z.is_pos d)) as [_ Hd2].
  pose proof (Z.log2_nonneg n) as Hln.
  pose proof (Z.log2_nonneg (Z.pos d)) as Hld.
  set (a := Z.log2 n) in *. set (b := Z.log2 (Z.pos d)) in *.
  assert (EA : inject_Z (2 ^ a) == 2 ^ a) by (now apply Zpower_Qpower).
  assert (EB : inject_Z (2 ^ Z.succ b) == 2 ^ Z.succ b)
    by (apply Zpower_Qpower; lia).
  assert (El : 2 ^ (l - 1) == 2 ^ a / 2 ^ Z.succ b).
  { replace (l - 1)%Z with (a - Z.succ b)%Z by (unfold l; lia).
    apply Qpower_minus. discriminate. }
  rewrite El, <- EA, <- EB, (Qmake_Qdiv n d).
  assert (HA : 0 < inject_Z (2 ^ a)) by (rewrite EA; apply two_power_pos).
  assert (HB : 0 < inject_Z (2 ^ Z.succ b)) by (rewrite EB; apply two_power_pos).
  assert (HN : inject_Z (2 ^ a) <= inject_Z n) by (now rewrite <- Zle_Qle).
  assert (HD : inject_Z (Z.pos d) <= inject_Z (2 ^ Z.succ b))
    by (rewrite <- Zle_Qle; lia).
  assert (HD0 : 0 < inject_Z (Z.pos d)) by (now rewrite <- (Zlt_Qlt 0)).
  revert HA HB HN HD HD0.
  generalize (inject_Z (2 ^ a)) (inject_Z (2 ^ Z.succ b))
             (inject_Z n) (inject_Z (Z.pos d)).
  intros A B N D HA HB HN HD HD0.
  apply Qle_shift_div_r; [exact HB|].
  assert (E1 : N / D * B == N * B / D) by (field; lra).
  rewrite E1. apply Qle_shift_div_l; [exact HD0|]. nra.
Qed.

(** A positive number below [2^k] is rounded with an error of at most half
    a unit in the last of 53 bits. *)
Lemma round_positive_near x k :
  0 < x -> x < 2 ^ k -> (-1021 <= k)%Z ->
  x - 2 ^ (k - 54) <= Metrics.round_positive x <= x + 2 ^ (k - 54) /\
  0 <= Metrics.round_positive x.
Proof.
  intros Hx Hk Hmin. unfold Metrics.round_positive. cbv zeta.
  assert (He : (Metrics.floor_log2 x < k)%Z).
  { apply (Qpower_lt_compat_l_inv 2); [|reflexivity].
    apply (Qle_lt_trans _ x); [now apply floor_log2_le | exact Hk]. }
  set (s := Z.max (Metrics.floor_log2 x - 52) (-1074)).
  assert (Hs : (s <= k - 53)%Z) by (unfold s; lia).
  pose proof (two_power_pos s) as HP.
  assert (Hhalf : 2 ^ s * (1 # 2) <= 2 ^ (k - 54)).
  { assert (E : 2 ^ (s - 1) == 2 ^ s * (1 # 2)).
    { unfold Z.sub. rewrite Qpower_plus by discriminate. reflexivity. }
    rewrite <- E. apply Qpower_le_compat_l; [lia | discriminate]. }
  pose proof (round_half_even_near (x / 2 ^ s)) as [Hlo Hhi].
  assert (Hnn : (0 <= Metrics.round_half_even (x / 2 ^ s))%Z).
  { apply round_half_even_nonneg. apply Qle_shift_div_l; [exact HP | lra]. }
  rewrite Zle_Qle in Hnn. change (inject_Z 0) with 0 in Hnn.
  assert (Ex : x / 2 ^ s * 2 ^ s == x) by (field; lra).
  revert Hlo Hhi Hnn Ex Hhalf HP.
  generalize (inject_Z (Metrics.round_half_even (x / 2 ^ s))) as R.
  generalize (x / 2 ^ s) as y. generalize (2 ^ (k - 54)) as B.
  generalize (2 ^ s) as P.
  intros P B y R Hlo Hhi Hnn Ex Hhalf HP.
  repeat split; nra.
Qed.

Lemma round_binary64_near x k :
  0 <= x -> x < 2 ^ k -> (-1021 <= k)%Z ->
  x - 2 ^ (k - 54) <= Metrics.round_binary64 x <= x + 2 ^ (k - 54) /\
  0 <= Metrics.round_binary64 x.
Proof.
  intros Hx Hk Hmin. unfold Metrics.round_binary64.
  pose proof (two_power_pos (k - 54)) as HB.
  destruct (Qcompare x 0) eqn:E.
  - apply Qeq_alt in E. repeat split; lra.
  - apply Qlt_alt in E. lra.
  - apply Qgt_alt in E. now apply round_positive_near.
Qed.

(** The text of a ratio between 0 and 1: the hundredths of a percent it
    shows are within a half, and what binary64 loses, of the exact ones. *)
Lemma format_percent2_near q :
  0 <= q <= 1 ->
  exists h : Z,
    Metrics.format_percent2 (Metrics.round_binary64 q) = percent_text h /\
    (0 <= h <= 10000)%Z /\
    Qabs (inject_Z h - 10000 * q) <= (1 # 2) + (1 # 100000000000).
Proof.
  intros [Hq0 Hq1].
  unfold Metrics.format_percent2. cbv zeta.
  set (d := Metrics.round_binary64 q).
  set (p := Metrics.round_binary64 (d * 100)).
  set (h := Metrics.round_half_even (p * 100)).
  destruct (round_binary64_near q 1) as [[Hd1 Hd2] Hd0];
    [exact Hq0 | change (2 ^ 1) with 2; lra | lia |].
  fold d in Hd1, Hd2, Hd0.
  assert (E53 : 2 ^ (1 - 54) = 1 # 9007199254740992)
    by (vm_compute; reflexivity).
  rewrite E53 in Hd1, Hd2.
  destruct (round_binary64_near (d * 100) 7) as [[Hp1 Hp2] Hp0];
    [lra | change (2 ^ 7) with 128; lra | lia |].
  fold p in Hp1, Hp2, Hp0.
  assert (E47 : 2 ^ (7 - 54) = 1 # 140737488355328)
    by (vm_compute; reflexivity).
  rewrite E47 in Hp1, Hp2.
  destruct (round_half_even_near (p * 100)) as [Hh1 Hh2].
  fold h in Hh1, Hh2.
  assert (Hh0 : (0 <= h)%Z) by (apply round_half_even_nonneg; lra).
  assert (Hh3 : (h <= 10000)%Z).
  { apply Z.lt_succ_r. rewrite Zlt_Qlt.
    change (inject_Z (Z.succ 10000)) with 10001. lra. }
  exists h. split; [|split; [lia|]].
  - rewrite (Z.abs_eq h Hh0).
    destruct (h <? 0)%Z eqn:E; [apply Z.ltb_lt in E; lia|].
    unfold percent_text, Metrics.two_digits, Metrics.decimal.
    destruct (h mod 100 <? 10)%Z; reflexivity.
  - apply Qabs_Qle_condition. split; lra.
Qed.

(** C8, counterexample.  The win-rate field is a text, not a number: with no
    trade it is the text "0.00%", with a single winning trade the text
    "100.00%". *)
Lemma win_rate_field_is_text :
  let flat := [] in
  let one_win := [mkRow (mkBar 1 3) 2 2 0 2] in
  Metrics.win_rate (Metrics.calculate_strategy_one_performance flat)
    = Str "0.00%" /\
  Metrics.win_rate (Metrics.calculate_strategy_one_performance one_win)
    = Str "100.00%" /\
  ~ (exists q,
       Metrics.win_rate (Metrics.calculate_strategy_one_performance flat) = Fin q) /\
  ~ (exists q,
       Metrics.win_rate (Metrics.calculate_strategy_one_performance one_win)
         = Fin q).
Proof.
  repeat split; try (vm_compute; reflexivity);
    intros [q H]; vm_compute in H; discriminate H.
Qed.

(** C8, amended.  The win-rate field is a text: the percentage, with two
    decimals, of the double nearest to the ratio of the winning-trade count
    to the total trade count.  That ratio lies in the interval [0, 1]; the
    hundredths of a percent shown lie between 0 and 10000 and are within a
    half, and what binary64 loses, of the exact ones; when the total trade
    count is 0 the ratio shown is 0 and the text is "0.00%". *)
Theorem win_rate_is_formatted_ratio (df : list Row) :
  let r := Metrics.calculate_strategy_one_performance df in
  let wins := length (realized_gains df) in
  let count := realized_count df in
  Metrics.total_trades r = count /\
  Metrics.num_winning_trades r = wins /\
  exists q,
    (count <> 0%nat ->
     q = inject_Z (Z.of_nat wins) / inject_Z (Z.of_nat count)) /\
    (count = 0%nat -> q = 0 /\ Metrics.win_rate r = Str "0.00%") /\
    0 <= q <= 1 /\
    Metrics.win_rate r
      = Str (Metrics.format_percent2 (Metrics.round_binary64 q)) /\
    exists h : Z,
      Metrics.win_rate r = Str (percent_text h) /\
      (0 <= h <= 10000)%Z /\
      Qabs (inject_Z h - 10000 * q) <= (1 # 2) + (1 # 100000000000).
Proof.
  intros r wins count.
  assert (Hshown : forall q, 0 <= q <= 1 ->
            Metrics.win_rate r
              = Str (Metrics.format_percent2 (Metrics.round_binary64 q)) ->
            exists h : Z,
              Metrics.win_rate r = Str (percent_text h) /\
              (0 <= h <= 10000)%Z /\
              Qabs (inject_Z h - 10000 * q) <= (1 # 2) + (1 # 100000000000)).
  { intros q Hq Hw. destruct (format_percent2_near q Hq) as [h [E Hh]].
    exists h. split; [now rewrite Hw, E | exact Hh]. }
  destruct (Metrics.trades_of df) as [|t ts] eqn:E.
  - destruct (performance_without_trades df E) as (Ht & Hw & _).
    fold r in Ht, Hw.
    pose proof (length_trades_of df) as Hc. fold count in Hc.
    pose proof (winning_trades_of df) as HW.
    rewrite E in Hc, HW. cbn [length] in Hc.
    assert (Hwins : wins = 0%nat).
    { unfold wins. rewrite <- HW. reflexivity. }
    split; [now rewrite Ht|]. split.
    + rewrite Hwins. unfold r, Metrics.calculate_strategy_one_performance.
      now rewrite E.
    + exists 0. split; [intro H; now contradiction H|].
      split; [intros _; now split|].
      assert (Hq : 0 <= 0 <= 1) by (split; lra).
      split; [exact Hq|].
      assert (Hw' : Metrics.win_rate r
                = Str (Metrics.format_percent2 (Metrics.round_binary64 0)))
        by (rewrite Hw; vm_compute; reflexivity).
      split; [exact Hw' | now apply Hshown].
  - assert (Hne : Metrics.trades_of df <> []) by (rewrite E; discriminate).
    destruct (performance_with_trades df Hne) as (Ht & Hnw & _ & Hw & _).
    fold r in Ht, Hnw, Hw.
    pose proof (length_trades_of df) as Hc. fold count in Hc.
    rewrite (winning_trades_of df) in Hnw, Hw. fold wins in Hnw.
    rewrite E in Ht, Hw, Hc.
    split; [now rewrite Ht|]. split; [exact Hnw|].
    unfold Qlen in Hw. fold wins in Hw. rewrite Hc in Hw.
    exists (inject_Z (Z.of_nat wins) / inject_Z (Z.of_nat count)).
    split; [reflexivity|].
    split; [intro H0; rewrite H0 in Hc; discriminate Hc|].
    assert (Hq : 0 <= inject_Z (Z.of_nat wins) / inject_Z (Z.of_nat count) <= 1).
    { apply ratio_in_unit_interval.
      - rewrite <- (Zle_Qle 0). lia.
      - rewrite <- Zle_Qle. apply inj_le.
        unfold count. rewrite realized_count_split. unfold wins. lia.
      - rewrite <- (Zlt_Qlt 0). rewrite <- Hc. cbn [length]. lia. }
    split; [exact Hq|]. split; [exact Hw | now apply Hshown].
Qed.

(** 23 winning trades among 160: the ratio is 0.14375, the double nearest
    to it lies below it, and the text reads "14.37%". *)
Lemma win_rate_is_formatted_ratio_witness :
  let df := repeat (mkRow (mkBar 1 1) 1 0 0 0) 23
            ++ repeat (mkRow (mkBar 1 1) (-1) 0 0 0) 137 in
  realized_count df = 160%nat /\
  length (realized_gains df) = 23%nat /\
  Metrics.win_rate (Metrics.calculate_strategy_one_performance df)
    = Str "14.37%".
Proof.
  intro df. split; [vm_compute; reflexivity|].
  split; [vm_compute; reflexivity|].
  destruct (win_rate_is_formatted_ratio df)
    as (_ & _ & q & Hq & _ & _ & Hw & _).
  rewrite Hw, Hq.
  - vm_compute. reflexivity.
  - vm_compute. discriminate.
Defined.

(** C1, counterexample.  On the trade list [5, -2, 3, -1, -4, 2] the losing
    trades -1 and -4 follow one another: the longest losing streak the
    engine returns is 2, not 1; and the win-rate field is the text
    "50.00%". *)
Lemma scenario_C_losing_streak_is_two :
  Metrics.trades_of scenario_C = [5; -2; 3; -1; -4; 2] /\
  Metrics.longest_loss_streak
    (Metrics.calculate_strategy_one_performance scenario_C) = 2%nat /\
  Metrics.longest_loss_streak
    (Metrics.calculate_strategy_one_performance scenario_C) <> 1%nat /\
  Metrics.win_rate (Metrics.calculate_strategy_one_performance scenario_C)
    <> Fin (1 # 2).
Proof.
  repeat split; try (vm_compute; reflexivity); vm_compute; discriminate.
Qed.

(** C1, amended.  Given a trajectory whose realized trade list is
    [5, -2, 3, -1, -4, 2], the engine returns total trades 6, winning count 3
    with total profit 10, losing count 3 with total loss -7, win rate 0.5
    shown as the text "50.00%", largest win 5, largest loss -4, average win
    10/3, average loss -7/3, profit/loss ratio 10/7, longest winning streak 1
    and longest losing streak 2. *)
Theorem scenario_C_metrics (df : list Row) :
  Metrics.trades_of df = [5; -2; 3; -1; -4; 2] ->
  let r := Metrics.calculate_strategy_one_performance df in
  Metrics.total_trades r = 6%nat /\
  Metrics.num_winning_trades r = 3%nat /\
  Metrics.total_profit r == 10 /\
  Metrics.num_losing_trades r = 3%nat /\
  Metrics.total_loss r == -7 /\
  Metrics.win_rate r = Str (Metrics.format_percent2 (1 # 2)) /\
  Metrics.win_rate r = Str "50.00%" /\
  Metrics.max_profit_trade r == 5 /\
  Metrics.max_loss_trade r == -4 /\
  Metrics.avg_profit r == 10 # 3 /\
  Metrics.avg_loss r == -7 # 3 /\
  (exists q, Metrics.profit_loss_ratio r = Fin q /\ q == 10 # 7) /\
  Metrics.longest_win_streak r = 1%nat /\
  Metrics.longest_loss_streak r = 2%nat.
Proof.
  intros H r. unfold r, Metrics.calculate_strategy_one_performance.
  cbv zeta. rewrite H.
  repeat split; try (vm_compute; reflexivity).
  exists (30 # 21). split; vm_compute; reflexivity.
Qed.

(** The two streaks on the frame of scenario C. *)
Lemma scenario_C_metrics_witness :
  let r := Metrics.calculate_strategy_one_performance scenario_C in
  Metrics.longest_win_streak r = 1%nat /\
  Metrics.longest_loss_streak r = 2%nat.
Proof.
  assert (H : Metrics.trades_of scenario_C = [5; -2; 3; -1; -4; 2])
    by (vm_compute; reflexivity).
  pose proof (scenario_C_metrics scenario_C H) as P.
  split; apply P.
Defined.

(* ================================================================== *)
(** ** The sensitivity harness *)
(* ================================================================== *)

Lemma bind_returns {A B} (c : M A) (f : A -> M B) k b k' :
  bind_M c f k = Returns (b, k') ->
  exists a k1, c k = Returns (a, k1) /\ f a k1 = Returns (b, k').
Proof.
  unfold bind_M. destruct (c k) as [[a k1] | e |]; try discriminate.
  intro H. now exists a, k1.
Qed.

Lemma unit_returns {A} (a b : A) k k' :
  unit_M a k = Returns (b, k') -> a = b /\ k = k'.
Proof.
  unfold unit_M. intro H. inversion H. now split.
Qed.

Section HarnessFacts.

Variable randbelow : nat -> Z -> Z.
Variable random : nat -> Q.
Variable backtest_func : list PriceBar -> Z -> Z -> Q -> Q -> outcome Frame.
Variable performance_func : list MarkedRow -> outcome Metrics.PerformanceRecord.

Lemma randint_returns range k :
  (fst range <= snd range)%Z ->
  randint randbelow range k = Returns (drawn randbelow range k, S k).
Proof.
  destruct range as [a b]. simpl. intro H. unfold randint, drawn. simpl.
  destruct (0 <? b - a + 1)%Z eqn:E; [reflexivity|].
  apply Z.ltb_ge in E. lia.
Qed.

Lemma randint_not_configuration_error range k :
  randint randbelow range k <> Raises ConfigurationError.
Proof.
  destruct range as [a b]. unfold randint.
  destruct (0 <? b - a + 1)%Z; discriminate.
Qed.

(** The loop is left only with a slow period above the fast one. *)
Lemma redraw_returns fuel range ma_p : forall bb_p k b k',
  redraw randbelow fuel range ma_p bb_p k = Returns (b, k') -> (ma_p < b)%Z.
Proof.
  induction fuel as [|fuel IH]; intros bb_p k b k'; simpl;
    destruct (bb_p <=? ma_p)%Z eqn:E; try discriminate;
    try (intro H; apply unit_returns in H; destruct H as [-> _];
         apply Z.leb_gt in E; exact E).
  intro H. apply bind_returns in H. destruct H as (a & k1 & _ & H).
  exact (IH _ _ _ _ H).
Qed.

(** No pass of the loop raises a configuration error. *)
Lemma redraw_not_configuration_error fuel range ma_p : forall bb_p k,
  redraw randbelow fuel range ma_p bb_p k <> Raises ConfigurationError.
Proof.
  induction fuel as [|fuel IH]; intros bb_p k; simpl;
    destruct (bb_p <=? ma_p)%Z; try discriminate.
  unfold bind_M.
  destruct (randint randbelow range k) as [[a k1] | e |] eqn:E.
  - apply IH.
  - intro H. inversion H. subst e.
    exact (randint_not_configuration_error _ _ E).
  - discriminate.
Qed.

(** Once a draw exceeds the fast period the loop ends with it. *)
Lemma redraw_ends range ma_p j : forall fuel bb_p k,
  (fst range <= snd range)%Z ->
  (bb_p <= ma_p)%Z ->
  (forall i, (i < j)%nat -> (drawn randbelow range (k + i) <= ma_p)%Z) ->
  (ma_p < drawn randbelow range (k + j))%Z ->
  (j < fuel)%nat ->
  redraw randbelow fuel range ma_p bb_p k
    = Returns (drawn randbelow range (k + j), S (k + j)).
Proof.
  induction j as [|j IH]; intros fuel bb_p k Hr Hbb Hbelow Habove Hfuel;
    (destruct fuel as [|fuel]; [lia|]); simpl;
    apply Z.leb_le in Hbb; rewrite Hbb;
    unfold bind_M; rewrite (randint_returns range k Hr).
  - rewrite Nat.add_0_r in *.
    destruct fuel; simpl; apply Z.leb_gt in Habove; now rewrite Habove.
  - rewrite (IH fuel (drawn randbelow range k) (S k) Hr).
    + now rewrite Nat.add_succ_r.
    + specialize (Hbelow 0%nat ltac:(lia)). now rewrite Nat.add_0_r in Hbelow.
    + intros i Hi. specialize (Hbelow (S i) ltac:(lia)).
      now rewrite Nat.add_succ_r in Hbelow.
    + now rewrite Nat.add_succ_r in Habove.
    + lia.
Qed.

Hypothesis randbelow_range :
  forall k n, (0 < n)%Z -> (0 <= randbelow k n < n)%Z.

Lemma drawn_in_range range k :
  (fst range <= snd range)%Z -> (fst range <= drawn randbelow range k <= snd range)%Z.
Proof.
  intro H. unfold drawn.
  pose proof (randbelow_range k (snd range - fst range + 1)%Z ltac:(lia)).
  lia.
Qed.

(** With a slow range that cannot exceed the fast period, no amount of
    passes ends the loop. *)
Lemma redraw_stuck range ma_p fuel : forall bb_p k,
  (fst range <= snd range)%Z ->
  (snd range <= ma_p)%Z ->
  (bb_p <= ma_p)%Z ->
  redraw randbelow fuel range ma_p bb_p k = Diverges.
Proof.
  induction fuel as [|fuel IH]; intros bb_p k Hr Hhi Hbb; simpl;
    apply Z.leb_le in Hbb; rewrite Hbb; [reflexivity|].
  unfold bind_M. rewrite (randint_returns range k Hr).
  apply IH; try assumption.
  pose proof (drawn_in_range range k Hr). lia.
Qed.

(** Then every trial is stuck in it, and so is the harness as soon as it
    has one trial to run. *)
Lemma trial_stuck fuel df ranges k :
  (fst (ma_period_range ranges) <= snd (ma_period_range ranges))%Z ->
  (fst (bb_period_range ranges) <= snd (bb_period_range ranges))%Z ->
  (snd (bb_period_range ranges) <= fst (ma_period_range ranges))%Z ->
  trial randbelow random backtest_func performance_func fuel df ranges k
    = Diverges.
Proof.
  intros Hma Hbb Hunsat. unfold trial.
  unfold bind_M at 1. rewrite (randint_returns _ k Hma).
  unfold bind_M at 1. rewrite (randint_returns _ (S k) Hbb).
  unfold bind_M at 1. rewrite redraw_stuck; [reflexivity | exact Hbb | |].
  - pose proof (drawn_in_range _ k Hma). lia.
  - pose proof (drawn_in_range _ k Hma).
    pose proof (drawn_in_range _ (S k) Hbb). lia.
Qed.

Lemma harness_stuck fuel df ranges iterations :
  (fst (ma_period_range ranges) <= snd (ma_period_range ranges))%Z ->
  (fst (bb_period_range ranges) <= snd (bb_period_range ranges))%Z ->
  (snd (bb_period_range ranges) <= fst (ma_period_range ranges))%Z ->
  (0 < iterations)%Z ->
  sensitivity_analysis randbelow random backtest_func performance_func
    fuel df (Some ranges) iterations = Diverges.
Proof.
  intros Hma Hbb Hunsat Hit. unfold sensitivity_analysis.
  destruct (Z.to_nat iterations) as [|n] eqn:E; [lia|].
  simpl. unfold bind_M at 1. now rewrite trial_stuck.
Qed.

End HarnessFacts.

Lemma counting_randbelow_range k n :
  (0 < n)%Z -> (0 <= counting_randbelow k n < n)%Z.
Proof.
  intro H. unfold counting_randbelow. now apply Z.mod_pos_bound.
Qed.

(** C4, counterexample.  With the fast period drawn from 10..10 and the slow
    period from 5..5, one trial of the harness never gets out of the
    re-draw loop: however many passes are followed, the run has neither
    returned nor raised anything, a configuration error included. *)
Lemma unsatisfiable_ranges_never_return :
  let ranges := mkRanges (10, 10)%Z (5, 5)%Z (1, 3) (1 # 10, 9 # 10) in
  let df := bars [3; 1; 5; 1] [3; 1; 5; 3] in
  ~ (exists fuel,
       sensitivity_analysis counting_randbelow half_random
         strategy_two_func metrics_func fuel df (Some ranges) 1
       <> Diverges).
Proof.
  intros ranges df [fuel H]. apply H.
  apply harness_stuck; try (simpl; lia).
  exact counting_randbelow_range.
Qed.

(** C4, amended.  The re-draw loop has no bound and no error of its own.
    With a generator that respects the requested range, a non-empty slow
    range and a first slow period not above the fast one: no pass raises a
    configuration error; the loop ends at the first draw that exceeds the
    fast period, with that draw; and when the maximum of the slow range
    does not exceed the fast period the loop never ends. *)
Theorem redraw_loop_is_unbounded
    (randbelow : nat -> Z -> Z) (range : Z * Z) (ma_p bb_p : Z) :
  (forall k n, (0 < n)%Z -> (0 <= randbelow k n < n)%Z) ->
  (fst range <= snd range)%Z ->
  (bb_p <= ma_p)%Z ->
  (forall fuel k,
      redraw randbelow fuel range ma_p bb_p k <> Raises ConfigurationError) /\
  (forall k j,
      (forall i, (i < j)%nat -> (drawn randbelow range (k + i) <= ma_p)%Z) ->
      (ma_p < drawn randbelow range (k + j))%Z ->
      forall fuel, (j < fuel)%nat ->
      redraw randbelow fuel range ma_p bb_p k
        = Returns (drawn randbelow range (k + j), S (k + j))) /\
  ((snd range <= ma_p)%Z ->
   forall fuel k, redraw randbelow fuel range ma_p bb_p k = Diverges).
Proof.
  intros Hgen Hr Hbb. split; [|split].
  - intros fuel k. apply redraw_not_configuration_error.
  - intros k j Hbelow Habove fuel Hfuel. now apply redraw_ends.
  - intros Hhi fuel k. now apply redraw_stuck.
Qed.

(** One loop that ends at its second draw, and one that cannot end. *)
Lemma redraw_loop_is_unbounded_witness :
  redraw counting_randbelow 3 (2, 4)%Z 3 2 1%nat = Returns (4%Z, 3%nat) /\
  redraw counting_randbelow 1000 (5, 5)%Z 10 5 0%nat = Diverges.
Proof.
  split.
  - refine (proj1 (proj2 (redraw_loop_is_unbounded counting_randbelow
                            (2, 4)%Z 3 2 counting_randbelow_range _ _))
                  1%nat 1%nat _ _ 3%nat _);
      try (vm_compute; congruence); try lia.
    intros i Hi. replace i with 0%nat by lia. vm_compute. congruence.
  - refine (proj2 (proj2 (redraw_loop_is_unbounded counting_randbelow
                            (5, 5)%Z 10 5 counting_randbelow_range _ _))
                  _ 1000%nat 0%nat);
      vm_compute; congruence.
Defined.

Section HarnessRows.

Variable randbelow : nat -> Z -> Z.
Variable random : nat -> Q.
Variable backtest_func : list PriceBar -> Z -> Z -> Q -> Q -> outcome Frame.
Variable performance_func : list MarkedRow -> outcome Metrics.PerformanceRecord.

Lemma trial_returns fuel df ranges k run k' :
  trial randbelow random backtest_func performance_func fuel df ranges k
    = Returns (run, k') ->
  (ma_period run < bb_period run)%Z.
Proof.
  unfold trial. intro H.
  apply bind_returns in H. destruct H as (ma_p & k1 & _ & H).
  apply bind_returns in H. destruct H as (bb_p0 & k2 & _ & H).
  apply bind_returns in H. destruct H as (bb_p & k3 & Hloop & H).
  apply bind_returns in H. destruct H as (bb_s & k4 & _ & H).
  apply bind_returns in H. destruct H as (drop_t & k5 & _ & H).
  apply bind_returns in H. destruct H as (df_result & k6 & _ & H).
  apply bind_returns in H. destruct H as (marked & k7 & _ & H).
  apply bind_returns in H. destruct H as (perf & k8 & _ & H).
  apply unit_returns in H. destruct H as [<- _]. simpl.
  exact (redraw_returns _ _ _ _ _ _ _ _ Hloop).
Qed.

Lemma trials_return fuel df ranges n : forall k results k',
  trials randbelow random backtest_func performance_func fuel df ranges n k
    = Returns (results, k') ->
  length results = n /\
  Forall (fun run => (ma_period run < bb_period run)%Z) results.
Proof.
  induction n as [|n IH]; intros k results k' H; simpl in H.
  - apply unit_returns in H. destruct H as [<- _]. now split.
  - apply bind_returns in H. destruct H as (run & k1 & Hrun & H).
    apply bind_returns in H. destruct H as (rest & k2 & Hrest & H).
    apply unit_returns in H. destruct H as [<- _].
    destruct (IH _ _ _ Hrest) as [HL HF]. split.
    + simpl. now rewrite HL.
    + constructor; [exact (trial_returns _ _ _ _ _ _ Hrun) | exact HF].
Qed.

End HarnessRows.

(** C9.  Whatever the generator, the injected simulator and metrics
    functions, the ranges and the trial count: in every row of the table the
    harness returns, the recorded slow period [bb_period] is strictly
    greater than the recorded fast period [ma_period]; the table has one row
    per trial. *)
Theorem slow_period_exceeds_fast_period
    (randbelow : nat -> Z -> Z) (random : nat -> Q)
    (backtest_func : list PriceBar -> Z -> Z -> Q -> Q -> outcome Frame)
    (performance_func : list MarkedRow -> outcome Metrics.PerformanceRecord)
    (fuel : nat) (df : list PriceBar) (param_ranges : option ParamRanges)
    (iterations : Z) (results : list SensitivityRun) :
  sensitivity_analysis randbelow random backtest_func performance_func
    fuel df param_ranges iterations = Returns results ->
  length results = Z.to_nat iterations /\
  Forall (fun run => (ma_period run < bb_period run)%Z) results.
Proof.
  unfold sensitivity_analysis.
  destruct (trials _ _ _ _ _ _ _ _ _) as [[rs k'] | e |] eqn:E;
    try discriminate.
  intro H. inversion H. subst rs.
  exact (trials_return _ _ _ _ _ _ _ _ _ _ _ E).
Qed.

(** A run of three trials with strategy two and the metrics engine. *)
Lemma slow_period_exceeds_fast_period_witness :
  let ranges := mkRanges (1, 3)%Z (2, 4)%Z (1, 3) (1 # 10, 9 # 10) in
  let df := bars [3; 1; 5; 1] [3; 1; 5; 3] in
  exists results,
    sensitivity_analysis counting_randbelow half_random
      strategy_two_func metrics_func 5 df (Some ranges) 3 = Returns results /\
    map (fun run => (ma_period run, bb_period run)) results
      = [(1, 3); (2, 4); (3, 4)]%Z /\
    length results = 3%nat /\
    Forall (fun run => (ma_period run < bb_period run)%Z) results.
Proof.
  intros ranges df.
  assert (E : exists results,
             sensitivity_analysis counting_randbelow half_random
               strategy_two_func metrics_func 5 df (Some ranges) 3
             = Returns results /\
             map (fun run => (ma_period run, bb_period run)) results
             = [(1, 3); (2, 4); (3, 4)]%Z).
  { eexists. split; [vm_compute; reflexivity | vm_compute; reflexivity]. }
  destruct E as (results & E & P).
  exists results. split; [exact E|]. split; [exact P|].
  exact (slow_period_exceeds_fast_period _ _ _ _ _ _ _ _ _ E).
Defined.

(* ================================================================== *)
(** ** The simulation loop, row by row *)
(* ================================================================== *)

Lemma Qltb_irrefl x : Qltb x x = false.
Proof. apply Qltb_ge. apply Qle_refl. Qed.

Lemma cell_lt_irrefl c : cell_lt c c = false.
Proof. destruct c; simpl; [apply Qltb_irrefl | reflexivity]. Qed.

Lemma cell_lt_nan_r c : cell_lt c None = false.
Proof. now destruct c. Qed.

Lemma settle_flat row a c sell :
  settle row 0 a c sell = (mkState 0 a c, mkOut 0 c 0).
Proof. reflexivity. Qed.

Section LoopRows.

Variable df : list PriceBar.
Variable body : nat -> SimState -> SimState * Out.
Hypothesis body_shape : enters_or_keeps df body.

(** The five ways one pass of the loop can go. *)
Lemma step_cases pre st st' o :
  Inv df pre st -> body (length pre) st = (st', o) ->
  let row := iloc df (length pre) in
  let held := close_price row - avg_cost st in
  let fresh := close_price row - open_price row in
  (cur_position st = 0%Z /\ o = mkOut 0 (cum_ret st) 0) \/
  (cur_position st = 1%Z /\ o = mkOut 0 (cum_ret st + held) 1) \/
  (cur_position st = 1%Z /\ o = mkOut held (cum_ret st + held) 0) \/
  (cur_position st = 0%Z /\ o = mkOut 0 (cum_ret st + fresh) 1) \/
  (cur_position st = 0%Z /\ o = mkOut fresh (cum_ret st + fresh) 0).
Proof.
  intros HI Hbody. destruct HI as [Hpos _ _ _ _].
  destruct (body_shape (length pre) st) as [sell [E | [Hflat E]]];
    rewrite E in Hbody; clear E; unfold settle in Hbody.
  - destruct Hpos as [Hp | Hp]; rewrite Hp in *; simpl in Hbody.
    + inversion Hbody. left. now split.
    + destruct sell; simpl in Hbody; inversion Hbody.
      * right. right. left. now split.
      * right. left. now split.
  - destruct sell; simpl in Hbody; inversion Hbody.
    + right. right. right. right. now split.
    + right. right. right. left. now split.
Qed.

(** The state in which pass [j] of the loop starts satisfies the invariant
    for the rows written before it. *)
Lemma loop_prefix_Inv n : forall pre st,
  Inv df pre st ->
  forall j, (j < n)%nat ->
  exists stj stj',
    Inv df (pre ++ firstn j (loop body n (length pre) st)) stj /\
    body (length pre + j) stj
      = (stj', nth j (loop body n (length pre) st) init_out).
Proof.
  induction n as [|n IH]; intros pre st HI j Hj; [lia|].
  simpl. destruct (body (length pre) st) as [st1 o] eqn:E.
  destruct j as [|j].
  - exists st, st1. simpl. rewrite app_nil_r, Nat.add_0_r. now split.
  - pose proof (Inv_step df body body_shape _ _ _ _ HI E) as HI1.
    destruct (IH _ _ HI1 j ltac:(lia)) as (stj & stj' & HIj & Hb).
    rewrite length_app in HIj, Hb. simpl in HIj, Hb.
    rewrite Nat.add_1_r in HIj, Hb.
    exists stj, stj'. simpl. split.
    + now rewrite <- app_assoc in HIj.
    + now rewrite Nat.add_succ_r.
Qed.

(** The same for the column that starts with the untouched row 0. *)
Lemma outs_step n i :
  (1 <= i <= n)%nat ->
  let outs := init_out :: loop body n 1 init_state in
  exists st st',
    Inv df (firstn i outs) st /\
    body i st = (st', nth i outs init_out) /\
    Inv df (firstn (S i) outs) st'.
Proof.
  intros Hi outs.
  destruct (loop_prefix_Inv n [init_out] init_state (Inv_init df)
              (i - 1)%nat ltac:(lia)) as (st & st' & HI & Hb).
  simpl length in Hb, HI.
  replace (1 + (i - 1))%nat with i in Hb by lia.
  assert (E1 : firstn i outs = [init_out] ++ firstn (i - 1) (loop body n 1 init_state)).
  { unfold outs. destruct i as [|i]; [lia|]. simpl.
    now rewrite Nat.sub_0_r. }
  assert (E2 : nth i outs init_out
               = nth (i - 1) (loop body n 1 init_state) init_out).
  { unfold outs. destruct i as [|i]; [lia|]. simpl.
    now rewrite Nat.sub_0_r. }
  rewrite <- E1 in HI. rewrite <- E2 in Hb.
  exists st, st'. split; [exact HI|]. split; [exact Hb|].
  assert (Hlen : length (firstn i outs) = i).
  { apply firstn_length_le. unfold outs. simpl. rewrite loop_length. lia. }
  rewrite <- Hlen in Hb at 1.
  pose proof (Inv_step df body body_shape _ _ _ _ HI Hb) as HS.
  assert (E3 : firstn (S i) outs = firstn i outs ++ [nth i outs init_out]).
  { assert (Hl : (i < length outs)%nat)
      by (unfold outs; simpl; rewrite loop_length; lia).
    revert Hl. generalize outs as l.
    clear. induction i as [|i IH]; intros [|x l] Hl; simpl in *; try lia.
    - reflexivity.
    - f_equal. apply IH. lia. }
  now rewrite E3.
Qed.

End LoopRows.

Lemma last_firstn {A} (l : list A) i d :
  (i < length l)%nat -> last (firstn (S i) l) d = nth i l d.
Proof.
  intro H. rewrite last_nth, firstn_length_le by lia.
  rewrite nth_firstn. replace (S i - 1)%nat with i by lia.
  now rewrite (proj2 (Nat.ltb_lt i (S i)) (Nat.lt_succ_diag_r i)).
Qed.

Lemma last_map_nth {A B} (f : A -> B) (l : list A) i dA dB :
  (i < length l)%nat -> last (map f (firstn (S i) l)) dB = f (nth i l dA).
Proof.
  intro H. rewrite <- firstn_map, last_firstn by (now rewrite length_map).
  rewrite (nth_indep _ dB (f dA)) by (now rewrite length_map).
  apply map_nth.
Qed.

Lemma assemble_bar df outs :
  length outs = length df -> map bar (assemble df outs) = df.
Proof.
  intro H. unfold assemble. rewrite map_map. simpl.
  revert outs H. induction df as [|b t IH]; intros [|o os] H; simpl in *;
    try reflexivity; try discriminate.
  f_equal. apply IH. lia.
Qed.

Lemma assemble_BH df outs :
  Forall (fun r => BH r = close_price (bar r) - close_price (iloc df 0))
         (assemble df outs).
Proof.
  unfold assemble. apply Forall_forall. intros r Hr.
  apply in_map_iff in Hr. destruct Hr as [p [<- _]]. reflexivity.
Qed.

Lemma leading_ones_pos l : nth 0 l 0%Z = 1%Z -> (1 <= leading_ones l)%nat.
Proof.
  destruct l as [|p l]; simpl; [discriminate|]. intros ->. simpl. lia.
Qed.

(** While a position is held at the end of a column, its entry row lies
    inside the column. *)
Lemma entry_index_lt ps :
  last ps 0%Z = 1%Z -> (entry_index ps < length ps)%nat.
Proof.
  intro H. unfold entry_index.
  assert (H1 : (1 <= leading_ones (rev ps))%nat).
  { apply leading_ones_pos.
    destruct ps as [|p ps _] using rev_ind; [discriminate|].
    rewrite last_last in H. rewrite rev_app_distr. simpl. exact H. }
  assert (H2 : (1 <= length ps)%nat)
    by (destruct ps; [discriminate | simpl; lia]).
  lia.
Qed.

Section SimulatedRows.

Variable df : list PriceBar.
Variable body : nat -> SimState -> SimState * Out.
Hypothesis body_shape : enters_or_keeps df body.
Variable n : nat.
Hypothesis HL : length df = S n.

Let outs : list Out := init_out :: loop body n 1 init_state.
Let rows : list Row := assemble df outs.

Lemma outs_length : length outs = length df.
Proof. unfold outs. simpl. rewrite loop_length. lia. Qed.

Lemma rows_nth i :
  (i < length df)%nat ->
  bar (nth i rows no_row) = iloc df i /\
  ret (nth i rows no_row) = o_ret (nth i outs init_out) /\
  cus (nth i rows no_row) = o_cus (nth i outs init_out) /\
  position (nth i rows no_row) = o_position (nth i outs init_out).
Proof. intro H. exact (assemble_nth df outs outs_length i H). Qed.

Lemma rows_ret : map ret rows = map o_ret outs.
Proof. unfold rows. apply assemble_ret. exact outs_length. Qed.

Lemma rows_position : map position rows = map o_position outs.
Proof. unfold rows. apply assemble_position. exact outs_length. Qed.

Lemma rows_first : flat_zero (nth 0 rows no_row).
Proof.
  destruct (rows_nth 0 ltac:(lia)) as (_ & Hr & Hc & Hp).
  unfold flat_zero. now rewrite Hr, Hc, Hp.
Qed.

Lemma rows_binary :
  Forall (fun r => position r = 0%Z \/ position r = 1%Z) rows.
Proof.
  apply Forall_nth. intros i d Hi.
  unfold rows in Hi. rewrite (assemble_length df outs outs_length) in Hi.
  rewrite (nth_indep _ d no_row)
    by (unfold rows; now rewrite (assemble_length df outs outs_length)).
  destruct (rows_nth i Hi) as (_ & _ & _ & ->).
  destruct i as [|i]; [now left|].
  destruct (outs_step df body body_shape n (S i) ltac:(lia))
    as (st & st' & _ & _ & HI).
  fold outs in HI. destruct HI as [Hpos Hlast _ _ _].
  rewrite (last_map_nth o_position outs (S i) init_out) in Hlast
    by (rewrite outs_length; lia).
  now rewrite Hlast.
Qed.

Lemma rows_equity i :
  (i < length df)%nat ->
  cus (nth i rows no_row) == realized_upto rows i + unrealized_at rows i.
Proof.
  intro Hi. unfold realized_upto, unrealized_at.
  destruct (rows_nth i Hi) as (Hb & _ & Hc & Hp).
  rewrite rows_ret, rows_position, Hb, Hc, Hp, Qsum_filter_nonzero.
  assert (HS : equity_split df (firstn (S i) outs)).
  { destruct i as [|i].
    - apply (Inv_equity_split df _ init_state). unfold outs. simpl.
      apply Inv_init.
    - destruct (outs_step df body body_shape n (S i) ltac:(lia))
        as (st & st' & _ & _ & HI).
      exact (Inv_equity_split df _ _ HI). }
  unfold equity_split in HS.
  assert (Ho : (i < length outs)%nat) by (rewrite outs_length; exact Hi).
  rewrite (last_map_nth o_cus outs i init_out) in HS by exact Ho.
  rewrite (last_map_nth o_position outs i init_out) in HS by exact Ho.
  rewrite firstn_length_le in HS by lia.
  replace (S i - 1)%nat with i in HS by lia.
  rewrite <- !firstn_map in HS. rewrite HS.
  destruct (o_position (nth i outs init_out) =? 1)%Z eqn:E; [|reflexivity].
  assert (Hk : (entry_index (firstn (S i) (map o_position outs)) < length df)%nat).
  { pose proof (entry_index_lt (firstn (S i) (map o_position outs))) as Hlt.
    rewrite last_firstn in Hlt by (now rewrite length_map).
    rewrite (nth_indep _ 0%Z (o_position init_out)) in Hlt
      by (now rewrite length_map).
    rewrite map_nth in Hlt. apply Z.eqb_eq in E. specialize (Hlt E).
    rewrite firstn_length_le in Hlt by (rewrite length_map; lia). lia. }
  destruct (rows_nth _ Hk) as (Hb' & _). rewrite Hb'. reflexivity.
Qed.

Lemma rows_booked i :
  (i < length df)%nat ->
  ~ ret (nth i rows no_row) == 0 ->
  position (nth i rows no_row) = 0%Z /\
  ret (nth i rows no_row)
    = close_price (iloc df i)
      - open_price (iloc df (entry_row (map position rows) i)).
Proof.
  intros Hi Hnz.
  destruct (rows_nth i Hi) as (_ & Hr & _ & Hp).
  rewrite Hr in *. rewrite Hp. clear Hr Hp.
  rewrite rows_position.
  destruct i as [|i]; [exfalso; apply Hnz; reflexivity|].
  destruct (outs_step df body body_shape n (S i) ltac:(lia))
    as (st & st' & HI & Hb & _).
  fold outs in HI, Hb.
  assert (Hlen : length (firstn (S i) outs) = S i)
    by (apply firstn_length_le; rewrite outs_length; lia).
  rewrite <- Hlen in Hb at 1.
  pose proof (step_cases df body body_shape _ _ _ _ HI Hb) as Hc.
  rewrite Hlen in Hc. cbv zeta in Hc.
  destruct HI as [_ Hlast _ Hcost _].
  rewrite (last_map_nth o_position outs i init_out) in Hlast
    by (rewrite outs_length; lia).
  unfold entry_row. replace (S i - 1)%nat with i by lia.
  rewrite (nth_indep _ 0%Z (o_position init_out))
    by (rewrite length_map, outs_length; lia).
  rewrite map_nth, Hlast.
  destruct Hc as [[_ E] | [[_ E] | [[Hp E] | [[_ E] | [Hp E]]]]];
    rewrite E in *; simpl in *;
    try (exfalso; apply Hnz; reflexivity).
  - rewrite Hp. simpl. split; [reflexivity|].
    rewrite (Hcost Hp), firstn_map. reflexivity.
  - rewrite Hp. simpl. split; reflexivity.
Qed.

End SimulatedRows.

Lemma entry_row_le positions i :
  (1 <= i <= length positions)%nat -> (entry_row positions i <= i)%nat.
Proof.
  intro Hi. unfold entry_row.
  destruct (nth (i - 1) positions 0 =? 1)%Z; [|lia].
  unfold entry_index. rewrite firstn_length_le by lia. lia.
Qed.

(** *** Both simulators, unfolded on a series of two rows or more *)

Section Unfolded.

Variable calc_ma : list PriceBar -> Z -> list cell.
Variable df : list PriceBar.
Hypothesis two_rows : (2 <= length df)%nat.

Lemma backtest_two_unfold s l :
  backtest_strategy_two calc_ma df s l
  = Full (assemble df
            (init_out ::
             loop (body_two df (calc_ma df s) (calc_ma df l))
                  (length df - 1) 1 init_state)).
Proof.
  unfold backtest_strategy_two.
  now rewrite (proj2 (Nat.ltb_ge (length df) 2) two_rows).
Qed.

Lemma backtest_three_unfold s m l :
  backtest_strategy_three calc_ma df s m l
  = Full (assemble df
            (init_out ::
             loop (body_three df (calc_ma df s) (calc_ma df m) (calc_ma df l))
                  (length df - 1) 1 init_state)).
Proof.
  unfold backtest_strategy_three.
  now rewrite (proj2 (Nat.ltb_ge (length df) 2) two_rows).
Qed.

Lemma length_pred : length df = S (length df - 1).
Proof. lia. Qed.

(** What holds of the frame any well-shaped loop body produces. *)
Lemma simulated_rows_facts body :
  enters_or_keeps df body ->
  let rows := assemble df (init_out :: loop body (length df - 1) 1 init_state) in
  length rows = length df /\
  laid_out_on df rows /\ marked_to_market rows /\ books_round_trips df rows.
Proof.
  intros Hshape rows.
  pose proof (outs_length df body _ length_pred) as Hlen.
  assert (HR : length rows = length df) by (apply assemble_length; exact Hlen).
  split; [exact HR|]. split; [|split].
  - split; [apply assemble_bar; exact Hlen|]. split; [|split].
    + exact (rows_first df body _ length_pred).
    + exact (rows_binary df body Hshape _ length_pred).
    + apply assemble_BH.
  - intros i Hi. rewrite HR in Hi.
    exact (rows_equity df body Hshape _ length_pred i Hi).
  - intros i Hi Hnz. rewrite HR in Hi.
    destruct (rows_booked df body Hshape _ length_pred i Hi Hnz) as [Hp Hr].
    split; [exact Hp|]. split; [|exact Hr].
    destruct i as [|i].
    + exfalso. apply Hnz.
      destruct (rows_first df body _ length_pred) as [E _].
      fold rows in E. now rewrite E.
    + apply entry_row_le. rewrite length_map. fold rows. lia.
Qed.

End Unfolded.

(** Both simulators return a frame laid out on the input. *)
Lemma trajectory_rows
    (calc_ma : list PriceBar -> Z -> list cell) (df : list PriceBar) :
  (2 <= length df)%nat ->
  (forall s l, exists rows,
      backtest_strategy_two calc_ma df s l = Full rows /\
      laid_out_on df rows) /\
  (forall s m l, exists rows,
      backtest_strategy_three calc_ma df s m l = Full rows /\
      laid_out_on df rows).
Proof.
  intro H. split; intros.
  - rewrite (backtest_two_unfold calc_ma df H). eexists. split; [reflexivity|].
    apply (simulated_rows_facts df H). apply body_two_shape.
  - rewrite (backtest_three_unfold calc_ma df H). eexists. split; [reflexivity|].
    apply (simulated_rows_facts df H). apply body_three_shape.
Qed.

(** X1.  On a series of at least two rows each simulator returns a frame
    laid out on its input: the price columns are the input rows in order,
    row 0 is flat with zero return and zero equity, every position cell is
    0 or 1, and the buy-and-hold cell of a row is its close minus the first
    close. *)
Theorem trajectory_laid_out_on_input
    (calc_ma : list PriceBar -> Z -> list cell) (df : list PriceBar) :
  (2 <= length df)%nat ->
  (forall s l, exists rows,
      backtest_strategy_two calc_ma df s l = Full rows /\
      laid_out_on df rows) /\
  (forall s m l, exists rows,
      backtest_strategy_three calc_ma df s m l = Full rows /\
      laid_out_on df rows).
Proof.
  exact (trajectory_rows calc_ma df).
Qed.

(** The layout of the frame strategy two returns on a four-row series. *)
Lemma trajectory_laid_out_on_input_witness :
  let df := bars [3; 1; 5; 1] [3; 1; 5; 3] in
  exists rows,
    backtest_strategy_two sma df 1 2 = Full rows /\ laid_out_on df rows.
Proof.
  intro df.
  assert (H : (2 <= length df)%nat) by (vm_compute; lia).
  exact (proj1 (trajectory_laid_out_on_input sma df H) 1%Z 2%Z).
Defined.

(** X2.  On a series of at least two rows, at every row of the frame either
    simulator returns, the equity cell equals the sum of the non-zero
    returns booked up to that row plus, while a position is held at the end
    of the row, the close of the row minus the open of the row where that
    position was opened. *)
Theorem equity_marked_to_market_at_every_row
    (calc_ma : list PriceBar -> Z -> list cell) (df : list PriceBar) :
  (2 <= length df)%nat ->
  (forall s l, exists rows,
      backtest_strategy_two calc_ma df s l = Full rows /\
      marked_to_market rows) /\
  (forall s m l, exists rows,
      backtest_strategy_three calc_ma df s m l = Full rows /\
      marked_to_market rows).
Proof.
  intro H. split; intros.
  - rewrite (backtest_two_unfold calc_ma df H). eexists. split; [reflexivity|].
    apply (simulated_rows_facts df H). apply body_two_shape.
  - rewrite (backtest_three_unfold calc_ma df H). eexists. split; [reflexivity|].
    apply (simulated_rows_facts df H). apply body_three_shape.
Qed.

(** The identity along a rising series on which strategy three holds a
    position from row 3 on. *)
Lemma equity_marked_to_market_at_every_row_witness :
  let df := bars [1; 2; 3; 3; 4; 5] [1; 2; 3; 4; 5; 6] in
  exists rows,
    backtest_strategy_three sma df 1 2 3 = Full rows /\ marked_to_market rows.
Proof.
  intro df.
  assert (H : (2 <= length df)%nat) by (vm_compute; lia).
  exact (proj2 (equity_marked_to_market_at_every_row sma df H) 1%Z 2%Z 3%Z).
Defined.

(** X3.  On a series of at least two rows, in the frame either simulator
    returns, a row with a non-zero return ends flat, and its return is the
    close of that row minus the open of the row where the position was
    opened: the row itself when the previous row ended flat, otherwise the
    first row of the run of held positions that ends at the previous row. *)
Theorem returns_are_booked_on_exit_rows
    (calc_ma : list PriceBar -> Z -> list cell) (df : list PriceBar) :
  (2 <= length df)%nat ->
  (forall s l, exists rows,
      backtest_strategy_two calc_ma df s l = Full rows /\
      books_round_trips df rows) /\
  (forall s m l, exists rows,
      backtest_strategy_three calc_ma df s m l = Full rows /\
      books_round_trips df rows).
Proof.
  intro H. split; intros.
  - rewrite (backtest_two_unfold calc_ma df H). eexists. split; [reflexivity|].
    apply (simulated_rows_facts df H). apply body_two_shape.
  - rewrite (backtest_three_unfold calc_ma df H). eexists. split; [reflexivity|].
    apply (simulated_rows_facts df H). apply body_three_shape.
Qed.

(** The bookings of strategy three on a series with one round trip. *)
Lemma returns_are_booked_on_exit_rows_witness :
  let df := bars [1; 2; 3; 3; 4; 2] [1; 2; 3; 4; 5; 1] in
  exists rows,
    backtest_strategy_three sma df 1 2 3 = Full rows /\
    books_round_trips df rows.
Proof.
  intro df.
  assert (H : (2 <= length df)%nat) by (vm_compute; lia).
  exact (proj2 (returns_are_booked_on_exit_rows sma df H) 1%Z 2%Z 3%Z).
Defined.

(** *** Rows on which nothing can happen *)

Lemma body_two_no_signal df short_ma long_ma i st :
  cur_position st = 0%Z ->
  ((i <= 1)%nat \/ is_golden_cross short_ma long_ma i = false) ->
  body_two df short_ma long_ma i st
  = (mkState 0 (avg_cost st) (cum_ret st), mkOut 0 (cum_ret st) 0).
Proof.
  intros Hp H. unfold body_two. rewrite Hp. simpl.
  destruct (1 <? i)%nat eqn:E; simpl; [|apply settle_flat].
  destruct H as [H | H]; [apply Nat.ltb_lt in E; lia|].
  rewrite H. apply settle_flat.
Qed.

Lemma body_three_no_signal df short_ma medium_ma long_ma i st :
  cur_position st = 0%Z ->
  is_bullish_alignment short_ma medium_ma long_ma i = false ->
  body_three df short_ma medium_ma long_ma i st
  = (mkState 0 (avg_cost st) (cum_ret st), mkOut 0 (cum_ret st) 0).
Proof.
  intros Hp H. unfold body_three. rewrite Hp, H. simpl. apply settle_flat.
Qed.

(** A loop whose body never enters writes nothing but untouched rows. *)
Lemma loop_no_entry body n : forall i st,
  cur_position st = 0%Z -> cum_ret st = 0 ->
  (forall j st', (i <= j < i + n)%nat -> cur_position st' = 0%Z ->
     body j st'
     = (mkState 0 (avg_cost st') (cum_ret st'), mkOut 0 (cum_ret st') 0)) ->
  loop body n i st = repeat init_out n.
Proof.
  induction n as [|n IH]; intros i st Hp Hc Hbody; simpl; [reflexivity|].
  rewrite (Hbody i st ltac:(lia) Hp), Hc.
  f_equal. apply IH; try reflexivity.
  intros j st' Hj. apply Hbody. lia.
Qed.

Lemma assemble_untouched df k :
  Forall flat_zero (assemble df (repeat init_out k)).
Proof.
  unfold assemble. apply Forall_forall. intros r Hr.
  apply in_map_iff in Hr. destruct Hr as [[b o] [<- Hin]].
  apply in_combine_r in Hin. apply repeat_spec in Hin. subst o.
  repeat split.
Qed.

(** X4.  Strategy two needs two earlier rows before it can enter: on every
    series of at least two rows, whatever the indicator values and the
    periods, rows 0 and 1 of the frame it returns are flat, with zero return
    and zero equity. *)
Theorem strategy_two_first_rows_are_flat
    (calc_ma : list PriceBar -> Z -> list cell) (df : list PriceBar)
    (short_ma_period long_ma_period : Z) :
  (2 <= length df)%nat ->
  exists rows,
    backtest_strategy_two calc_ma df short_ma_period long_ma_period = Full rows /\
    flat_zero (nth 0 rows no_row) /\ flat_zero (nth 1 rows no_row).
Proof.
  intro H. rewrite (backtest_two_unfold calc_ma df H).
  eexists. split; [reflexivity|].
  set (body := body_two df (calc_ma df short_ma_period)
                        (calc_ma df long_ma_period)).
  pose proof (length_pred df H) as HL.
  split; [exact (rows_first df body _ HL)|].
  destruct (rows_nth df body _ HL 1%nat ltac:(lia)) as (_ & Hr & Hc & Hp).
  unfold flat_zero. rewrite Hr, Hc, Hp.
  destruct (length df - 1)%nat as [|k] eqn:E; [lia|].
  cbn [nth loop]. unfold body.
  rewrite (body_two_no_signal df _ _ 1%nat init_state eq_refl (or_introl (le_n 1))).
  repeat split.
Qed.

(** Rows 0 and 1 on a rising three-row series. *)
Lemma strategy_two_first_rows_are_flat_witness :
  exists rows,
    backtest_strategy_two sma (bars [1; 5; 9] [1; 5; 9]) 1 2 = Full rows /\
    flat_zero (nth 0 rows no_row) /\ flat_zero (nth 1 rows no_row).
Proof.
  apply strategy_two_first_rows_are_flat. vm_compute. lia.
Defined.

(** X5.  No entry signal, no trade.  On a series of at least two rows: when
    no row from row 2 on sees a golden cross, strategy two returns a frame
    whose rows are all flat with zero return and zero equity; when no row
    from row 1 on sees a bullish alignment, so does strategy three. *)
Theorem no_signal_no_trade
    (calc_ma : list PriceBar -> Z -> list cell) (df : list PriceBar) :
  (2 <= length df)%nat ->
  (forall s l,
      (forall i, (2 <= i < length df)%nat ->
         is_golden_cross (calc_ma df s) (calc_ma df l) i = false) ->
      exists rows,
        backtest_strategy_two calc_ma df s l = Full rows /\
        length rows = length df /\ Forall flat_zero rows) /\
  (forall s m l,
      (forall i, (1 <= i < length df)%nat ->
         is_bullish_alignment (calc_ma df s) (calc_ma df m) (calc_ma df l) i
         = false) ->
      exists rows,
        backtest_strategy_three calc_ma df s m l = Full rows /\
        length rows = length df /\ Forall flat_zero rows).
Proof.
  intro H. split.
  - intros s l Hno. rewrite (backtest_two_unfold calc_ma df H).
    eexists. split; [reflexivity|].
    rewrite (loop_no_entry _ (length df - 1) 1 init_state eq_refl eq_refl).
    + split; [|apply (assemble_untouched df (S (length df - 1)))].
      apply assemble_length. simpl. rewrite repeat_length. lia.
    + intros j st' Hj Hp. apply body_two_no_signal; [exact Hp|].
      destruct (Nat.le_gt_cases j 1) as [Hle | Hgt]; [now left|].
      right. apply Hno. lia.
  - intros s m l Hno. rewrite (backtest_three_unfold calc_ma df H).
    eexists. split; [reflexivity|].
    rewrite (loop_no_entry _ (length df - 1) 1 init_state eq_refl eq_refl).
    + split; [|apply (assemble_untouched df (S (length df - 1)))].
      apply assemble_length. simpl. rewrite repeat_length. lia.
    + intros j st' Hj Hp. apply body_three_no_signal; [exact Hp|].
      apply Hno. lia.
Qed.

(** Strategy three with a long window of 10 rows on a four-row series: the
    long average is NaN on every row, so no row sees an alignment. *)
Lemma no_signal_no_trade_witness :
  let df := bars [1; 2; 3; 3] [1; 2; 3; 1] in
  exists rows,
    backtest_strategy_three sma df 1 2 10 = Full rows /\
    length rows = length df /\ Forall flat_zero rows.
Proof.
  intro df.
  assert (H : (2 <= length df)%nat) by (vm_compute; lia).
  apply (proj2 (no_signal_no_trade sma df H) 1%Z 2%Z 10%Z).
  intros i Hi. change (length df) with 4%nat in Hi.
  assert (E : i = 1%nat \/ i = 2%nat \/ i = 3%nat) by lia.
  destruct E as [-> | [-> | ->]]; vm_compute; reflexivity.
Defined.

Lemma golden_cross_same_column col i : is_golden_cross col col i = false.
Proof. unfold is_golden_cross. now rewrite cell_lt_irrefl. Qed.

Lemma bullish_same_short_medium col long_ma i :
  is_bullish_alignment col col long_ma i = false.
Proof. unfold is_bullish_alignment. now rewrite cell_lt_irrefl. Qed.

Lemma bullish_same_medium_long short_ma col i :
  is_bullish_alignment short_ma col col i = false.
Proof.
  unfold is_bullish_alignment. rewrite (cell_lt_irrefl (at_ col (i - 1))).
  apply andb_false_r.
Qed.

(** X6.  Equal periods name the same indicator column, and a column is
    never strictly below itself.  On every series of at least two rows and
    for every indicator transform: strategy two with the short period equal
    to the long one, and strategy three with the short period equal to the
    medium one or the medium period equal to the long one, raise nothing and
    return a frame whose rows are all flat with zero return and zero
    equity. *)
Theorem equal_periods_never_trade
    (calc_ma : list PriceBar -> Z -> list cell) (df : list PriceBar) :
  (2 <= length df)%nat ->
  (forall p, exists rows,
      backtest_strategy_two calc_ma df p p = Full rows /\
      length rows = length df /\ Forall flat_zero rows) /\
  (forall p l, exists rows,
      backtest_strategy_three calc_ma df p p l = Full rows /\
      length rows = length df /\ Forall flat_zero rows) /\
  (forall s p, exists rows,
      backtest_strategy_three calc_ma df s p p = Full rows /\
      length rows = length df /\ Forall flat_zero rows).
Proof.
  intro H.
  assert (Hflat : forall body,
    (forall j st', cur_position st' = 0%Z ->
       body j st'
       = (mkState 0 (avg_cost st') (cum_ret st'), mkOut 0 (cum_ret st') 0)) ->
    let rows := assemble df (init_out :: loop body (length df - 1) 1 init_state) in
    length rows = length df /\ Forall flat_zero rows).
  { intros body Hb rows. unfold rows.
    rewrite (loop_no_entry body (length df - 1) 1 init_state eq_refl eq_refl)
      by (intros j st' _; apply Hb).
    split; [|apply (assemble_untouched df (S (length df - 1)))].
    apply assemble_length. simpl. rewrite repeat_length. lia. }
  split; [|split]; intros.
  - rewrite (backtest_two_unfold calc_ma df H). eexists.
    split; [reflexivity|]. apply Hflat. intros j st' Hp.
    apply body_two_no_signal; [exact Hp|]. right. apply golden_cross_same_column.
  - rewrite (backtest_three_unfold calc_ma df H). eexists.
    split; [reflexivity|]. apply Hflat. intros j st' Hp.
    apply body_three_no_signal; [exact Hp|]. apply bullish_same_short_medium.
  - rewrite (backtest_three_unfold calc_ma df H). eexists.
    split; [reflexivity|]. apply Hflat. intros j st' Hp.
    apply body_three_no_signal; [exact Hp|]. apply bullish_same_medium_long.
Qed.

(** Strategy two with both periods 2 on a series that rises and falls. *)
Lemma equal_periods_never_trade_witness :
  let df := bars [1; 3; 1; 0] [1; 3; 1; 3] in
  exists rows,
    backtest_strategy_two sma df 2 2 = Full rows /\
    length rows = length df /\ Forall flat_zero rows.
Proof.
  intro df.
  assert (H : (2 <= length df)%nat) by (vm_compute; lia).
  exact (proj1 (equal_periods_never_trade sma df H) 2%Z).
Defined.

(* ================================================================== *)
(** ** The metrics engine, field by field *)
(* ================================================================== *)

(** Every field of the returned record in terms of the trade list, in both
    branches of the engine. *)
Lemma performance_fields df :
  let r := Metrics.calculate_strategy_one_performance df in
  let trades := Metrics.trades_of df in
  let W := Metrics.winning trades in
  let L := Metrics.losing trades in
  Metrics.total_trades r = length trades /\
  Metrics.num_winning_trades r = length W /\
  Metrics.num_losing_trades r = length L /\
  Metrics.net_profit r = Qsum trades /\
  Metrics.total_profit r = Qsum W /\
  Metrics.total_loss r = Qsum L /\
  Metrics.max_profit_trade r = Metrics.max_or_zero W /\
  Metrics.max_loss_trade r = Metrics.min_or_zero L /\
  Metrics.avg_profit r = match W with [] => 0 | _ => Qsum W / Qlen W end /\
  Metrics.avg_loss r = match L with [] => 0 | _ => Qsum L / Qlen L end /\
  Metrics.longest_win_streak r
    = Metrics.longest_win (Metrics.streak_scan trades) /\
  Metrics.longest_loss_streak r
    = Metrics.longest_loss (Metrics.streak_scan trades) /\
  Metrics.final_equity r = Metrics.iloc_last (map cus df).
Proof.
  intros r trades W L. unfold r, W, L, trades.
  unfold Metrics.calculate_strategy_one_performance.
  destruct (Metrics.trades_of df) as [|t ts] eqn:E.
  - simpl. repeat split. now destruct df.
  - cbv zeta. simpl length at 1. cbv iota beta.
    generalize (Metrics.winning (t :: ts)) as W'.
    generalize (Metrics.losing (t :: ts)) as L'.
    intros L' W'. repeat split; simpl.
    + now destruct W'.
    + now destruct L'.
Qed.

Lemma last_map_cus (rows : list Row) :
  Metrics.iloc_last (map cus rows) = cus (last rows no_row).
Proof.
  unfold Metrics.iloc_last.
  induction rows as [|r rows IH]; [reflexivity|].
  destruct rows as [|r' rows]; [reflexivity|].
  simpl in *. exact IH.
Qed.




Lemma sign_cases x :
  (Qltb 0 x = true /\ Qltb x 0 = false /\ 0 < x) \/
  (Qltb 0 x = false /\ Qltb x 0 = true /\ x < 0) \/
  (Qltb 0 x = false /\ Qltb x 0 = false /\ x == 0).
Proof.
  destruct (Qltb 0 x) eqn:E1; destruct (Qltb x 0) eqn:E2.
  - apply Qltb_lt in E1. apply Qltb_lt in E2. lra.
  - left. apply Qltb_lt in E1. now repeat split.
  - right. left. apply Qltb_lt in E2. now repeat split.
  - right. right. apply Qltb_ge in E1. apply Qltb_ge in E2.
    repeat split. lra.
Qed.


Lemma wins_and_losses_count l :
  (forall t, In t l -> ~ t == 0) ->
  length l = (length (Metrics.winning l) + length (Metrics.losing l))%nat.
Proof.
  induction l as [|x l IH]; intro Hnz; [reflexivity|].
  assert (IH' := IH (fun t Ht => Hnz t (or_intror Ht))).
  unfold Metrics.winning, Metrics.losing in *. simpl.
  destruct (sign_cases x) as [(-> & -> & _) | [(-> & -> & _) | (_ & _ & E)]];
    simpl; try lia.
  exfalso. exact (Hnz x (or_introl eq_refl) E).
Qed.







(* ================================================================== *)
(** ** The streak scan *)
(* ================================================================== *)

Lemma streak_scan_snoc l x :
  Metrics.streak_scan (l ++ [x])
  = Metrics.streak_step (Metrics.streak_scan l) x.
Proof. unfold Metrics.streak_scan. now rewrite fold_left_app. Qed.

Lemma nth_snoc_old (l : list Q) x i :
  (i < length l)%nat -> nth i (l ++ [x]) 0 = nth i l 0.
Proof. intro H. now apply app_nth1. Qed.

Lemma nth_snoc_new (l : list Q) x : nth (length l) (l ++ [x]) 0 = x.
Proof. rewrite app_nth2 by lia. now rewrite Nat.sub_diag. Qed.

Lemma winning_run_lift l x i k :
  winning_run l i k -> winning_run (l ++ [x]) i k.
Proof.
  intros [Hb Hr]. split; [rewrite length_app; simpl; lia|].
  intros j Hj. rewrite nth_snoc_old by lia. now apply Hr.
Qed.

Lemma winning_run_restrict l x i k :
  winning_run (l ++ [x]) i k -> (i + k <= length l)%nat -> winning_run l i k.
Proof.
  intros [_ Hr] Hb. split; [exact Hb|].
  intros j Hj. rewrite <- (nth_snoc_old l x) by lia. now apply Hr.
Qed.

(** What the scan knows after a list of non-zero trades: the current
    counter is the length of the run of wins that ends the list, and that
    run cannot be extended to the left; the longest counter is the length
    of the longest run of wins. *)
Lemma scan_win_invariant l :
  (forall t, In t l -> ~ t == 0) ->
  let s := Metrics.streak_scan l in
  winning_run l (length l - Metrics.current_win s) (Metrics.current_win s) /\
  (Metrics.current_win s <= length l)%nat /\
  ((Metrics.current_win s < length l)%nat ->
     ~ 0 < nth (length l - Metrics.current_win s - 1) l 0) /\
  longest_run (winning_run l) (Metrics.longest_win s) /\
  (Metrics.current_win s <= Metrics.longest_win s)%nat.
Proof.
  induction l as [|x l IH] using rev_ind; intro Hnz.
  - cbv zeta. change (Metrics.streak_scan []) with (Metrics.mkStreaks 0 0 0 0).
    simpl. split; [|split; [|split; [|split]]].
    + split; [simpl; lia | intros j Hj; lia].
    + lia.
    + intro H. lia.
    + split.
      * exists 0%nat. split; [simpl; lia | intros j Hj; lia].
      * intros i k' [Hb _]. simpl in Hb. lia.
    + lia.
  - assert (Hnz' : forall t, In t l -> ~ t == 0)
      by (intros t Ht; apply Hnz; apply in_or_app; now left).
    specialize (IH Hnz'). cbv zeta in IH.
    destruct IH as (Hrun & Hcwle & Hmax & [[i0 Hex] Hub] & Hle).
    cbv zeta. rewrite streak_scan_snoc.
    set (s := Metrics.streak_scan l) in *.
    rewrite length_app. simpl length.
    unfold Metrics.streak_step.
    destruct (sign_cases x) as [(-> & _ & Hpos) | [(-> & -> & Hneg) | (_ & _ & E)]].
    + (* a win extends the current run *)
      simpl. split; [|split; [|split; [|split]]].
      * split; [rewrite length_app; simpl; lia|]. intros j Hj.
        destruct (Nat.eq_dec j (Metrics.current_win s)) as [-> | Hne].
        -- replace (length l + 1 - S (Metrics.current_win s)
                    + Metrics.current_win s)%nat with (length l) by lia.
           now rewrite nth_snoc_new.
        -- rewrite nth_snoc_old by lia.
           replace (length l + 1 - S (Metrics.current_win s) + j)%nat
             with (length l - Metrics.current_win s + j)%nat by lia.
           apply Hrun. lia.
      * lia.
      * intro Hlt.
        replace (length l + 1 - S (Metrics.current_win s) - 1)%nat
          with (length l - Metrics.current_win s - 1)%nat by lia.
        rewrite nth_snoc_old by lia. apply Hmax. lia.
      * split.
        -- destruct (Nat.max_spec (Metrics.longest_win s)
                       (S (Metrics.current_win s))) as [[_ ->] | [_ ->]].
           ++ exists (length l - Metrics.current_win s)%nat.
              split; [rewrite length_app; simpl; lia|].
              intros j Hj.
              destruct (Nat.eq_dec j (Metrics.current_win s)) as [-> | Hne].
              ** replace (length l - Metrics.current_win s
                          + Metrics.current_win s)%nat with (length l) by lia.
                 now rewrite nth_snoc_new.
              ** rewrite nth_snoc_old by lia. apply Hrun. lia.
           ++ exists i0. now apply winning_run_lift.
        -- intros i k' Hr.
           destruct (Nat.le_gt_cases (i + k') (length l)) as [Hin | Hout].
           ++ pose proof (Hub i k' (winning_run_restrict _ _ _ _ Hr Hin)). lia.
           ++ destruct Hr as [Hb Hr]. rewrite length_app in Hb. simpl in Hb.
              destruct (Nat.le_gt_cases k' (S (Metrics.current_win s)))
                as [Hk | Hk]; [lia|].
              exfalso. apply Hmax; [lia|].
              specialize (Hr (length l - Metrics.current_win s - 1 - i)%nat
                             ltac:(lia)).
              replace (i + (length l - Metrics.current_win s - 1 - i))%nat
                with (length l - Metrics.current_win s - 1)%nat in Hr by lia.
              now rewrite nth_snoc_old in Hr by lia.
      * lia.
    + (* a loss ends it *)
      simpl. rewrite Nat.max_0_r. split; [|split; [|split; [|split]]].
      * split; [rewrite length_app; simpl; lia|]. intros j Hj. lia.
      * lia.
      * intros _. replace (length l + 1 - 0 - 1)%nat with (length l) by lia.
        rewrite nth_snoc_new. lra.
      * split.
        -- exists i0. now apply winning_run_lift.
        -- intros i k' Hr.
           destruct (Nat.le_gt_cases (i + k') (length l)) as [Hin | Hout].
           ++ exact (Hub i k' (winning_run_restrict _ _ _ _ Hr Hin)).
           ++ destruct k' as [|k']; [lia|].
              destruct Hr as [Hb Hr]. rewrite length_app in Hb. simpl in Hb.
              specialize (Hr (length l - i)%nat ltac:(lia)).
              replace (i + (length l - i))%nat with (length l) in Hr by lia.
              rewrite nth_snoc_new in Hr. lra.
      * lia.
    + exfalso. apply (Hnz x); [apply in_or_app; right; now left | exact E].
Qed.

(** Negating every trade exchanges the two pairs of counters. *)
Lemma streak_step_opp s x :
  Metrics.streak_step (swap_sides s) (- x) = swap_sides (Metrics.streak_step s x).
Proof.
  unfold Metrics.streak_step.
  destruct (sign_cases x) as [(A & B & H) | [(A & B & H) | (A & B & H)]];
    rewrite A, ?B.
  - assert (E1 : Qltb 0 (- x) = false) by (apply Qltb_ge; lra).
    assert (E2 : Qltb (- x) 0 = true) by (apply Qltb_lt; lra).
    now rewrite E1, E2.
  - assert (E1 : Qltb 0 (- x) = true) by (apply Qltb_lt; lra).
    now rewrite E1.
  - assert (E1 : Qltb 0 (- x) = false) by (apply Qltb_ge; lra).
    assert (E2 : Qltb (- x) 0 = false) by (apply Qltb_ge; lra).
    now rewrite E1, E2.
Qed.

Lemma streak_scan_opp l :
  Metrics.streak_scan (map Qopp l) = swap_sides (Metrics.streak_scan l).
Proof.
  unfold Metrics.streak_scan.
  change (Metrics.mkStreaks 0 0 0 0) with (swap_sides (Metrics.mkStreaks 0 0 0 0))
    at 1.
  generalize (Metrics.mkStreaks 0 0 0 0) as s.
  induction l as [|x l IH]; intro s; simpl; [reflexivity|].
  now rewrite streak_step_opp, IH.
Qed.

Lemma nth_opp l i : nth i (map Qopp l) 0 = - nth i l 0.
Proof. exact (map_nth Qopp l 0 i). Qed.

Lemma losing_run_opp l i k :
  losing_run l i k <-> winning_run (map Qopp l) i k.
Proof.
  unfold losing_run, winning_run. rewrite length_map.
  split; intros [Hb Hr]; (split; [exact Hb|]); intros j Hj;
    specialize (Hr j Hj).
  - rewrite nth_opp. lra.
  - rewrite nth_opp in Hr. lra.
Qed.

(** X10.  The two streak fields are what their names say: for every
    trajectory, the longest winning streak reported is the length of the
    longest run of consecutive winning trades in the realized trade list,
    and the longest losing streak reported is the length of the longest run
    of consecutive losing trades. *)
Theorem streaks_are_longest_runs (df : list Row) :
  let r := Metrics.calculate_strategy_one_performance df in
  let trades := Metrics.trades_of df in
  longest_run (winning_run trades) (Metrics.longest_win_streak r) /\
  longest_run (losing_run trades) (Metrics.longest_loss_streak r).
Proof.
  intros r trades.
  pose proof (performance_fields df) as F. cbv zeta in F. fold r trades in F.
  destruct F as (_ & _ & _ & _ & _ & _ & _ & _ & _ & _ & Hw & Hl & _).
  rewrite Hw, Hl. split.
  - apply (scan_win_invariant trades). apply trades_nonzero.
  - assert (Hnz : forall t, In t (map Qopp trades) -> ~ t == 0).
    { intros t Ht. apply in_map_iff in Ht. destruct Ht as [u [<- Hu]].
      pose proof (trades_nonzero df u Hu). lra. }
    destruct (scan_win_invariant (map Qopp trades) Hnz)
      as (_ & _ & _ & [[i Hex] Hub] & _).
    rewrite streak_scan_opp in Hex, Hub. simpl in Hex, Hub. split.
    + exists i. now apply losing_run_opp.
    + intros j k' Hr. apply (Hub j). now apply losing_run_opp.
Qed.

Lemma run_count (f : Q -> bool) l : forall i k,
  (i + k <= length l)%nat ->
  (forall j, (j < k)%nat -> f (nth (i + j) l 0) = true) ->
  (k <= length (filter f l))%nat.
Proof.
  induction l as [|x l IH]; intros i k Hb Hr; simpl in Hb; [lia|].
  simpl. destruct i as [|i].
  - destruct k as [|k]; [lia|].
    pose proof (Hr 0%nat ltac:(lia)) as H0. simpl in H0. rewrite H0. simpl.
    apply le_n_S. apply (IH 0%nat); [simpl; lia|].
    intros j Hj. exact (Hr (S j) ltac:(lia)).
  - assert (k <= length (filter f l))%nat.
    { apply (IH i); [lia|]. intros j Hj. exact (Hr j Hj). }
    destruct (f x); simpl; lia.
Qed.

Lemma In_nth_run (f : Q -> bool) l x :
  In x l -> f x = true ->
  exists i, (i + 1 <= length l)%nat /\
            forall j, (j < 1)%nat -> f (nth (i + j) l 0) = true.
Proof.
  intros Hin Hf. destruct (In_nth l x 0 Hin) as [i [Hi E]].
  exists i. split; [lia|]. intros j Hj. replace j with 0%nat by lia.
  now rewrite Nat.add_0_r, E.
Qed.

(** X11.  The streaks never count a trade twice: for every trajectory the
    longest winning streak is at most the winning count, the longest losing
    streak at most the losing count, so their sum is at most the total
    trade count; and a streak is 0 exactly when the trade list has no trade
    of its kind. *)
Theorem streaks_do_not_double_count (df : list Row) :
  let r := Metrics.calculate_strategy_one_performance df in
  (Metrics.longest_win_streak r <= Metrics.num_winning_trades r)%nat /\
  (Metrics.longest_loss_streak r <= Metrics.num_losing_trades r)%nat /\
  (Metrics.longest_win_streak r + Metrics.longest_loss_streak r
     <= Metrics.total_trades r)%nat /\
  (Metrics.longest_win_streak r = 0%nat <-> Metrics.num_winning_trades r = 0%nat) /\
  (Metrics.longest_loss_streak r = 0%nat <-> Metrics.num_losing_trades r = 0%nat).
Proof.
  intro r.
  pose proof (performance_fields df) as F. cbv zeta in F. fold r in F.
  destruct F as (Ht & Hnw & Hnl & _ & _ & _ & _ & _ & _ & _ & Hw & Hl & _).
  set (trades := Metrics.trades_of df) in *.
  assert (Hnz := trades_nonzero df). fold trades in Hnz.
  assert (Hnz' : forall t, In t (map Qopp trades) -> ~ t == 0).
  { intros t Hin. apply in_map_iff in Hin. destruct Hin as [u [<- Hu]].
    pose proof (Hnz u Hu). lra. }
  destruct (scan_win_invariant trades Hnz) as (_ & _ & _ & [[iw Hexw] Hubw] & _).
  destruct (scan_win_invariant (map Qopp trades) Hnz')
    as (_ & _ & _ & [[il Hexl] Hubl] & _).
  rewrite streak_scan_opp in Hexl, Hubl. simpl in Hexl, Hubl.
  rewrite <- Hw in Hexw, Hubw. rewrite <- Hl in Hexl, Hubl.
  apply losing_run_opp in Hexl.
  assert (Bw : (Metrics.longest_win_streak r <= Metrics.num_winning_trades r)%nat).
  { rewrite Hnw. destruct Hexw as [Hb Hr]. unfold Metrics.winning.
    apply (run_count _ trades iw); [exact Hb|].
    intros j Hj. apply Qltb_lt. now apply Hr. }
  assert (Bl : (Metrics.longest_loss_streak r <= Metrics.num_losing_trades r)%nat).
  { rewrite Hnl. destruct Hexl as [Hb Hr]. unfold Metrics.losing.
    apply (run_count _ trades il); [exact Hb|].
    intros j Hj. apply Qltb_lt. now apply Hr. }
  split; [exact Bw|]. split; [exact Bl|]. split; [|split].
  - rewrite Ht, (wins_and_losses_count trades Hnz), <- Hnw, <- Hnl. lia.
  - split; [|lia]. intro E0.
    rewrite Hnw. destruct (Metrics.winning trades) as [|w ws] eqn:EW;
      [reflexivity|exfalso].
    assert (Hin : In w (Metrics.winning trades)) by (rewrite EW; now left).
    apply In_winning in Hin. destruct Hin as [Hin Hpos].
    destruct (In_nth_run (fun t => Qltb 0 t) trades w Hin
                (proj2 (Qltb_lt 0 w) Hpos)) as [i [Hb Hr]].
    assert (Hrun : winning_run trades i 1).
    { split; [exact Hb|]. intros j Hj. apply Qltb_lt. now apply Hr. }
    pose proof (Hubw i 1%nat Hrun). lia.
  - split; [|lia]. intro E0.
    rewrite Hnl. destruct (Metrics.losing trades) as [|w ws] eqn:EL;
      [reflexivity|exfalso].
    assert (Hin : In w (Metrics.losing trades)) by (rewrite EL; now left).
    apply In_losing in Hin. destruct Hin as [Hin Hneg].
    destruct (In_nth_run (fun t => Qltb t 0) trades w Hin
                (proj2 (Qltb_lt w 0) Hneg)) as [i [Hb Hr]].
    assert (Hrun : winning_run (map Qopp trades) i 1).
    { apply losing_run_opp. split; [exact Hb|].
      intros j Hj. apply Qltb_lt. now apply Hr. }
    pose proof (Hubl i 1%nat Hrun). lia.
Qed.

(* ================================================================== *)
(** ** The harness: ranges, generator and injected functions *)
(* ================================================================== *)

Lemma bind_M_ext {A B} (c : M A) (f g : A -> M B) k :
  (forall a k1, c k = Returns (a, k1) -> f a k1 = g a k1) ->
  bind_M c f k = bind_M c g k.
Proof.
  intro H. unfold bind_M. destruct (c k) as [[a k1] | e |]; auto.
Qed.

Section HarnessEdges.

Variable randbelow : nat -> Z -> Z.
Variable random : nat -> Q.
Variable backtest_func : list PriceBar -> Z -> Z -> Q -> Q -> outcome Frame.
Variable performance_func : list MarkedRow -> outcome Metrics.PerformanceRecord.

Lemma randint_empty range k :
  (snd range < fst range)%Z -> randint randbelow range k = Raises ValueError.
Proof.
  destruct range as [a b]. simpl. intro H. unfold randint.
  destruct (0 <? b - a + 1)%Z eqn:E; [|reflexivity].
  apply Z.ltb_lt in E. lia.
Qed.

Lemma randint_returns_inv range k v k' :
  randint randbelow range k = Returns (v, k') ->
  (fst range <= snd range)%Z /\ v = drawn randbelow range k /\ k' = S k.
Proof.
  destruct range as [a b]. unfold randint, drawn. simpl.
  destruct (0 <? b - a + 1)%Z eqn:E; [|discriminate].
  apply Z.ltb_lt in E. intro H. inversion H. repeat split. lia.
Qed.

(** A slow period that is already above the fast one is kept, whatever the
    number of passes allowed. *)
Lemma redraw_skipped fuel range ma_p bb_p k :
  (ma_p < bb_p)%Z ->
  redraw randbelow fuel range ma_p bb_p k = Returns (bb_p, k).
Proof.
  intro H. apply Z.leb_gt in H. destruct fuel; simpl; now rewrite H.
Qed.

Hypothesis randbelow_range :
  forall k n, (0 < n)%Z -> (0 <= randbelow k n < n)%Z.

(** The loop returns the period it was given or one drawn from the range. *)
Lemma redraw_in_range fuel range ma_p : forall bb_p k b k',
  (fst range <= bb_p <= snd range)%Z ->
  redraw randbelow fuel range ma_p bb_p k = Returns (b, k') ->
  (fst range <= b <= snd range)%Z.
Proof.
  induction fuel as [|fuel IH]; intros bb_p k b k' Hin; simpl;
    destruct (bb_p <=? ma_p)%Z; try discriminate;
    try (intro H; apply unit_returns in H; destruct H as [<- _]; exact Hin).
  intro H. apply bind_returns in H. destruct H as (v & k1 & Hv & H).
  apply randint_returns_inv in Hv. destruct Hv as (Hr & -> & ->).
  apply (IH _ _ _ _ (drawn_in_range randbelow randbelow_range range k Hr) H).
Qed.

Lemma trial_in_range fuel df ranges k run k' :
  trial randbelow random backtest_func performance_func fuel df ranges k
    = Returns (run, k') ->
  (fst (ma_period_range ranges) <= ma_period run
     <= snd (ma_period_range ranges))%Z /\
  (fst (bb_period_range ranges) <= bb_period run
     <= snd (bb_period_range ranges))%Z.
Proof.
  unfold trial. intro H.
  apply bind_returns in H. destruct H as (ma_p & k1 & Hma & H).
  apply bind_returns in H. destruct H as (bb_p0 & k2 & Hbb & H).
  apply bind_returns in H. destruct H as (bb_p & k3 & Hloop & H).
  apply bind_returns in H. destruct H as (bb_s & k4 & _ & H).
  apply bind_returns in H. destruct H as (drop_t & k5 & _ & H).
  apply bind_returns in H. destruct H as (df_result & k6 & _ & H).
  apply bind_returns in H. destruct H as (marked & k7 & _ & H).
  apply bind_returns in H. destruct H as (perf & k8 & _ & H).
  apply unit_returns in H. destruct H as [<- _]. simpl.
  apply randint_returns_inv in Hma. destruct Hma as (Hr1 & -> & ->).
  apply randint_returns_inv in Hbb. destruct Hbb as (Hr2 & -> & ->).
  split.
  - exact (drawn_in_range randbelow randbelow_range _ k Hr1).
  - apply (redraw_in_range _ _ _ _ _ _ _
             (drawn_in_range randbelow randbelow_range _ (S k) Hr2) Hloop).
Qed.

Lemma trials_in_range fuel df ranges n : forall k results k',
  trials randbelow random backtest_func performance_func fuel df ranges n k
    = Returns (results, k') ->
  Forall (fun run =>
            (fst (ma_period_range ranges) <= ma_period run
               <= snd (ma_period_range ranges))%Z /\
            (fst (bb_period_range ranges) <= bb_period run
               <= snd (bb_period_range ranges))%Z) results.
Proof.
  induction n as [|n IH]; intros k results k' H; simpl in H.
  - apply unit_returns in H. destruct H as [<- _]. constructor.
  - apply bind_returns in H. destruct H as (run & k1 & Hrun & H).
    apply bind_returns in H. destruct H as (rest & k2 & Hrest & H).
    apply unit_returns in H. destruct H as [<- _].
    constructor; [exact (trial_in_range _ _ _ _ _ _ Hrun) | exact (IH _ _ _ Hrest)].
Qed.

(** With the slow range wholly above the fast range the loop is never
    entered, and a trial does not depend on the number of passes allowed. *)
Lemma trial_without_redraw fuel df ranges k :
  (snd (ma_period_range ranges) < fst (bb_period_range ranges))%Z ->
  trial randbelow random backtest_func performance_func fuel df ranges k
  = trial randbelow random backtest_func performance_func 0 df ranges k.
Proof.
  intro Hdis. unfold trial.
  apply bind_M_ext. intros ma_p k1 Ema.
  apply bind_M_ext. intros bb_p k2 Ebb.
  apply randint_returns_inv in Ema. destruct Ema as (Hr1 & -> & ->).
  apply randint_returns_inv in Ebb. destruct Ebb as (Hr2 & -> & ->).
  pose proof (drawn_in_range randbelow randbelow_range _ k Hr1).
  pose proof (drawn_in_range randbelow randbelow_range _ (S k) Hr2).
  unfold bind_M at 1. rewrite redraw_skipped by lia.
  symmetry. unfold bind_M at 1. rewrite redraw_skipped by lia.
  reflexivity.
Qed.

Lemma trials_without_redraw fuel df ranges n : forall k,
  (snd (ma_period_range ranges) < fst (bb_period_range ranges))%Z ->
  trials randbelow random backtest_func performance_func fuel df ranges n k
  = trials randbelow random backtest_func performance_func 0 df ranges n k.
Proof.
  induction n as [|n IH]; intros k Hdis; simpl; [reflexivity|].
  unfold bind_M at 1. rewrite trial_without_redraw by exact Hdis.
  symmetry. unfold bind_M at 1.
  destruct (trial _ _ _ _ 0%nat df ranges k) as [[run k1] | e |];
    try reflexivity.
  unfold bind_M. now rewrite IH.
Qed.

End HarnessEdges.

(** X12.  With a trial count of zero or less the harness draws nothing,
    calls neither injected function and returns the empty table, whatever
    the ranges, empty or unsatisfiable ones included. *)
Theorem no_trial_gives_empty_table
    (randbelow : nat -> Z -> Z) (random : nat -> Q)
    (backtest_func : list PriceBar -> Z -> Z -> Q -> Q -> outcome Frame)
    (performance_func : list MarkedRow -> outcome Metrics.PerformanceRecord)
    (fuel : nat) (df : list PriceBar) (param_ranges : option ParamRanges)
    (iterations : Z) :
  (iterations <= 0)%Z ->
  sensitivity_analysis randbelow random backtest_func performance_func
    fuel df param_ranges iterations = Returns [].
Proof.
  intro H. unfold sensitivity_analysis.
  replace (Z.to_nat iterations) with 0%nat by lia. reflexivity.
Qed.

(** No trial, unsatisfiable ranges, no passes allowed: the empty table. *)
Lemma no_trial_gives_empty_table_witness :
  sensitivity_analysis counting_randbelow half_random
    strategy_two_func metrics_func 0 []
    (Some (mkRanges (10, 10)%Z (5, 5)%Z (1, 3) (1 # 10, 9 # 10))) (-3)
  = Returns [].
Proof.
  apply no_trial_gives_empty_table. lia.
Defined.

(** X13.  An empty period range is an error of the first trial: with at
    least one trial to run, when the maximum of the fast range is below its
    minimum, or the fast range is non-empty and the maximum of the slow range
    is below its minimum, the harness raises [ValueError], before either
    injected function is called. *)
Theorem empty_period_range_raises_value_error
    (randbelow : nat -> Z -> Z) (random : nat -> Q)
    (backtest_func : list PriceBar -> Z -> Z -> Q -> Q -> outcome Frame)
    (performance_func : list MarkedRow -> outcome Metrics.PerformanceRecord)
    (fuel : nat) (df : list PriceBar) (ranges : ParamRanges) (iterations : Z) :
  (0 < iterations)%Z ->
  (snd (ma_period_range ranges) < fst (ma_period_range ranges))%Z \/
  ((fst (ma_period_range ranges) <= snd (ma_period_range ranges))%Z /\
   (snd (bb_period_range ranges) < fst (bb_period_range ranges))%Z) ->
  sensitivity_analysis randbelow random backtest_func performance_func
    fuel df (Some ranges) iterations = Raises ValueError.
Proof.
  intros Hit H. unfold sensitivity_analysis.
  destruct (Z.to_nat iterations) as [|n] eqn:E; [lia|].
  simpl. unfold bind_M at 1. unfold trial. unfold bind_M at 1.
  destruct H as [H | [H1 H2]].
  - now rewrite randint_empty.
  - rewrite randint_returns by exact H1.
    unfold bind_M at 1. now rewrite randint_empty.
Qed.

(** A fast range of 5..3. *)
Lemma empty_period_range_raises_value_error_witness :
  sensitivity_analysis counting_randbelow half_random
    strategy_two_func metrics_func 5 (bars [3; 1; 5; 1] [3; 1; 5; 3])
    (Some (mkRanges (5, 3)%Z (6, 9)%Z (1, 3) (1 # 10, 9 # 10))) 2
  = Raises ValueError.
Proof.
  apply empty_period_range_raises_value_error; [lia|].
  left. simpl. lia.
Defined.

(** X14.  With a generator that respects the range it is asked for, every
    row of the table the harness returns records a fast period inside the
    fast range and a slow period inside the slow range. *)
Theorem recorded_periods_lie_in_their_ranges
    (randbelow : nat -> Z -> Z) (random : nat -> Q)
    (backtest_func : list PriceBar -> Z -> Z -> Q -> Q -> outcome Frame)
    (performance_func : list MarkedRow -> outcome Metrics.PerformanceRecord)
    (fuel : nat) (df : list PriceBar) (param_ranges : option ParamRanges)
    (iterations : Z) (results : list SensitivityRun) :
  (forall k n, (0 < n)%Z -> (0 <= randbelow k n < n)%Z) ->
  sensitivity_analysis randbelow random backtest_func performance_func
    fuel df param_ranges iterations = Returns results ->
  let ranges := effective_ranges param_ranges in
  Forall (fun run =>
            (fst (ma_period_range ranges) <= ma_period run
               <= snd (ma_period_range ranges))%Z /\
            (fst (bb_period_range ranges) <= bb_period run
               <= snd (bb_period_range ranges))%Z) results.
Proof.
  intros Hgen. unfold sensitivity_analysis. fold (effective_ranges param_ranges).
  destruct (trials _ _ _ _ _ _ _ _ _) as [[rs k'] | e |] eqn:E;
    try discriminate.
  intro H. inversion H. subst rs.
  exact (trials_in_range _ _ _ _ Hgen _ _ _ _ _ _ _ E).
Qed.

(** Three trials under the default ranges. *)
Lemma recorded_periods_lie_in_their_ranges_witness :
  let df := bars [3; 1; 5; 1] [3; 1; 5; 3] in
  exists results,
    sensitivity_analysis counting_randbelow half_random
      strategy_two_func metrics_func 0 df None 3 = Returns results /\
    length results = 3%nat /\
    Forall (fun run =>
              (3 <= ma_period run <= 15)%Z /\ (16 <= bb_period run <= 40)%Z)
           results.
Proof.
  intro df.
  assert (E : exists results,
             sensitivity_analysis counting_randbelow half_random
               strategy_two_func metrics_func 0 df None 3 = Returns results /\
             length results = 3%nat).
  { eexists. split; [vm_compute; reflexivity | vm_compute; reflexivity]. }
  destruct E as (results & E & L).
  exists results. split; [exact E|]. split; [exact L|].
  exact (recorded_periods_lie_in_their_ranges _ _ _ _ _ _ _ _ _
           counting_randbelow_range E).
Defined.

Section HarnessTotal.

Variable randbelow : nat -> Z -> Z.
Variable random : nat -> Q.
Variable backtest_func : list PriceBar -> Z -> Z -> Q -> Q -> outcome Frame.
Variable performance_func : list MarkedRow -> outcome Metrics.PerformanceRecord.

Hypothesis randbelow_range :
  forall k n, (0 < n)%Z -> (0 <= randbelow k n < n)%Z.

Lemma randint_not_diverges range k : randint randbelow range k <> Diverges.
Proof.
  destruct range as [a b]. unfold randint.
  destruct (0 <? b - a + 1)%Z; discriminate.
Qed.

Variable ranges : ParamRanges.
Hypothesis disjoint :
  (snd (ma_period_range ranges) < fst (bb_period_range ranges))%Z.

(** What a trial does once its two periods are drawn. *)
Lemma trial_after_draws fuel df k :
  (fst (ma_period_range ranges) <= snd (ma_period_range ranges))%Z ->
  (fst (bb_period_range ranges) <= snd (bb_period_range ranges))%Z ->
  trial randbelow random backtest_func performance_func fuel df ranges k
  = (let ma_p := drawn randbelow (ma_period_range ranges) k in
     let bb_p := drawn randbelow (bb_period_range ranges) (S k) in
     bind_M (uniform random (bb_std_range ranges)) (fun bb_s =>
     bind_M (uniform random (drop_threshold_range ranges)) (fun drop_t =>
     bind_M (lift_M (backtest_func df ma_p bb_p bb_s drop_t)) (fun df_result =>
     bind_M (lift_M (mark_entry_exit df_result)) (fun df_result =>
     bind_M (lift_M (performance_func df_result)) (fun performance =>
     unit_M (mkRun ma_p bb_p (round2 bb_s) (round2 drop_t) performance))))))
       (S (S k))).
Proof.
  intros Hr1 Hr2. unfold trial.
  unfold bind_M at 1. rewrite (randint_returns _ _ k Hr1).
  unfold bind_M at 1. rewrite (randint_returns _ _ (S k) Hr2).
  pose proof (drawn_in_range randbelow randbelow_range _ k Hr1).
  pose proof (drawn_in_range randbelow randbelow_range _ (S k) Hr2).
  unfold bind_M at 1. rewrite redraw_skipped by lia. reflexivity.
Qed.

Hypothesis backtest_ends :
  forall df a b c d, backtest_func df a b c d <> Diverges.
Hypothesis performance_ends :
  forall df, performance_func df <> Diverges.

Lemma trial_ends fuel df k :
  trial randbelow random backtest_func performance_func fuel df ranges k
  <> Diverges.
Proof.
  unfold trial. unfold bind_M at 1.
  destruct (randint randbelow (ma_period_range ranges) k)
    as [[ma_p k1] | e |] eqn:Ema;
    [|discriminate | exfalso; exact (randint_not_diverges _ _ Ema)].
  unfold bind_M at 1.
  destruct (randint randbelow (bb_period_range ranges) k1)
    as [[bb_p k2] | e |] eqn:Ebb;
    [|discriminate | exfalso; exact (randint_not_diverges _ _ Ebb)].
  apply randint_returns_inv in Ema. destruct Ema as (Hr1 & -> & ->).
  apply randint_returns_inv in Ebb. destruct Ebb as (Hr2 & -> & ->).
  pose proof (drawn_in_range randbelow randbelow_range _ k Hr1).
  pose proof (drawn_in_range randbelow randbelow_range _ (S k) Hr2).
  unfold bind_M at 1. rewrite redraw_skipped by lia.
  unfold bind_M, uniform, lift_M, unit_M.
  destruct (bb_std_range ranges) as [a1 b1].
  destruct (drop_threshold_range ranges) as [a2 b2].
  destruct (backtest_func _ _ _ _ _) as [fr | e |] eqn:Eb;
    [|discriminate | exfalso; exact (backtest_ends _ _ _ _ _ Eb)].
  destruct (mark_entry_exit fr) as [mk | e |] eqn:Em;
    [|discriminate | destruct fr; discriminate].
  destruct (performance_func mk) as [p | e |] eqn:Ep;
    [discriminate | discriminate | exfalso; exact (performance_ends _ Ep)].
Qed.

Lemma trials_end fuel df n : forall k,
  trials randbelow random backtest_func performance_func fuel df ranges n k
  <> Diverges.
Proof.
  induction n as [|n IH]; intro k; simpl; [discriminate|].
  unfold bind_M at 1.
  destruct (trial _ _ _ _ fuel df ranges k) as [[run k1] | e |] eqn:E;
    [|discriminate | exfalso; exact (trial_ends _ _ _ E)].
  unfold bind_M at 1.
  destruct (trials _ _ _ _ fuel df ranges n k1) as [[rs k2] | e |] eqn:E2;
    [discriminate | discriminate | exfalso; exact (IH _ E2)].
Qed.

End HarnessTotal.

(** X15.  When the whole slow range lies above the fast range, as it does
    in the default ranges, the re-draw loop is never entered: with a
    generator that respects the requested range, the outcome of the harness
    is the same for every number of loop passes allowed, none included; and
    if neither injected function runs forever, the harness does not
    either. *)
Theorem disjoint_ranges_never_redraw
    (randbelow : nat -> Z -> Z) (random : nat -> Q)
    (backtest_func : list PriceBar -> Z -> Z -> Q -> Q -> outcome Frame)
    (performance_func : list MarkedRow -> outcome Metrics.PerformanceRecord)
    (fuel : nat) (df : list PriceBar) (param_ranges : option ParamRanges)
    (iterations : Z) :
  (forall k n, (0 < n)%Z -> (0 <= randbelow k n < n)%Z) ->
  (snd (ma_period_range (effective_ranges param_ranges))
     < fst (bb_period_range (effective_ranges param_ranges)))%Z ->
  sensitivity_analysis randbelow random backtest_func performance_func
    fuel df param_ranges iterations
  = sensitivity_analysis randbelow random backtest_func performance_func
      0 df param_ranges iterations /\
  ((forall d a b c e, backtest_func d a b c e <> Diverges) ->
   (forall d, performance_func d <> Diverges) ->
   sensitivity_analysis randbelow random backtest_func performance_func
     fuel df param_ranges iterations <> Diverges).
Proof.
  intros Hgen Hdis. unfold sensitivity_analysis.
  fold (effective_ranges param_ranges). split.
  - now rewrite (trials_without_redraw randbelow random backtest_func
                   performance_func Hgen fuel df _ _ 0%nat Hdis).
  - intros Hb Hp.
    destruct (trials _ _ _ _ fuel df _ _ 0%nat) as [[rs k] | e |] eqn:E;
      try discriminate.
    exfalso.
    exact (trials_end randbelow random backtest_func performance_func
             Hgen _ Hdis Hb Hp fuel df _ 0%nat E).
Qed.

(** The default ranges, 3..15 and 16..40. *)
Lemma disjoint_ranges_never_redraw_witness :
  let df := bars [3; 1; 5; 1] [3; 1; 5; 3] in
  sensitivity_analysis counting_randbelow half_random
    strategy_two_func metrics_func 7 df None 2
  = sensitivity_analysis counting_randbelow half_random
      strategy_two_func metrics_func 0 df None 2.
Proof.
  intro df.
  refine (proj1 (disjoint_ranges_never_redraw counting_randbelow half_random
                   strategy_two_func metrics_func 7 df None 2
                   counting_randbelow_range _)).
  simpl. lia.
Defined.

(** X16.  A frame without a "position" column stops the harness.  With a
    generator that respects the requested range, non-empty period ranges of
    which the slow one lies above the fast one, and at least one trial to
    run: when the injected simulator returns a frame that has no result
    columns, the harness raises [KeyError], and the metrics function is not
    reached. *)
Theorem frame_without_position_raises_key_error
    (randbelow : nat -> Z -> Z) (random : nat -> Q)
    (backtest_func : list PriceBar -> Z -> Z -> Q -> Q -> outcome Frame)
    (performance_func : list MarkedRow -> outcome Metrics.PerformanceRecord)
    (fuel : nat) (df : list PriceBar) (param_ranges : option ParamRanges)
    (iterations : Z) :
  let ranges := effective_ranges param_ranges in
  (forall k n, (0 < n)%Z -> (0 <= randbelow k n < n)%Z) ->
  (fst (ma_period_range ranges) <= snd (ma_period_range ranges))%Z ->
  (snd (ma_period_range ranges) < fst (bb_period_range ranges))%Z ->
  (fst (bb_period_range ranges) <= snd (bb_period_range ranges))%Z ->
  (0 < iterations)%Z ->
  (forall a b c d, exists bare, backtest_func df a b c d = Returns (Bare bare)) ->
  sensitivity_analysis randbelow random backtest_func performance_func
    fuel df param_ranges iterations = Raises KeyError.
Proof.
  intros ranges Hgen Hr1 Hdis Hr2 Hit Hbare. unfold sensitivity_analysis.
  fold (effective_ranges param_ranges). fold ranges.
  destruct (Z.to_nat iterations) as [|n] eqn:E; [lia|].
  simpl. unfold bind_M at 1.
  rewrite (trial_after_draws randbelow random backtest_func performance_func
             Hgen ranges Hdis fuel df 0%nat Hr1 Hr2).
  cbv zeta. unfold bind_M, uniform, lift_M.
  destruct (bb_std_range ranges) as [a1 b1].
  destruct (drop_threshold_range ranges) as [a2 b2].
  destruct (Hbare (drawn randbelow (ma_period_range ranges) 0)
                  (drawn randbelow (bb_period_range ranges) 1)
                  (a1 + (b1 - a1) * random 2%nat)
                  (a2 + (b2 - a2) * random 3%nat)) as [bare ->].
  reflexivity.
Qed.

(** Strategy two on a one-row series, under the default ranges. *)
Lemma frame_without_position_raises_key_error_witness :
  sensitivity_analysis counting_randbelow half_random
    strategy_two_func metrics_func 0 [mkBar 10 10] None 5
  = Raises KeyError.
Proof.
  apply frame_without_position_raises_key_error;
    try (simpl; lia); try exact counting_randbelow_range.
  intros a b c d. exists [mkBar 10 10]. reflexivity.
Defined.

(* ================================================================== *)
(** ** The entry and exit columns of the harness *)
(* ================================================================== *)

Lemma mark_from_row shifted rows : map row (mark_from shifted rows) = rows.
Proof.
  revert shifted. induction rows as [|r rows IH]; intro shifted; simpl;
    [reflexivity | now rewrite IH].
Qed.

Lemma mark_from_exclusive shifted rows :
  Forall (fun m => entry m && exit m = false) (mark_from shifted rows).
Proof.
  revert shifted. induction rows as [|r rows IH]; intro shifted; simpl;
    constructor; [|apply IH].
  simpl. destruct (position r =? 1)%Z eqn:E1; simpl.
  - apply Z.eqb_eq in E1. rewrite E1. simpl. apply andb_false_r.
  - reflexivity.
Qed.

Lemma last_cons_default {A} (x : A) l d : last (x :: l) d = last l x.
Proof.
  revert x d. induction l as [|y l IH]; intros x d; [reflexivity|].
  change (last (x :: y :: l) d) with (last (y :: l) d).
  rewrite IH. symmetry. apply IH.
Qed.

Lemma count_entries_cons m ms :
  count_entries (m :: ms) = ((if entry m then 1 else 0) + count_entries ms)%nat.
Proof. unfold count_entries. simpl. now destruct (entry m). Qed.

Lemma count_exits_cons m ms :
  count_exits (m :: ms) = ((if exit m then 1 else 0) + count_exits ms)%nat.
Proof. unfold count_exits. simpl. now destruct (exit m). Qed.

(** Entries and exits follow the changes of the position column. *)
Lemma mark_balance rows : forall p,
  p = 0%Z \/ p = 1%Z ->
  Forall (fun r => position r = 0%Z \/ position r = 1%Z) rows ->
  (Z.of_nat (count_entries (mark_from (Some p) rows)) + p
   = Z.of_nat (count_exits (mark_from (Some p) rows))
     + last (map position rows) p)%Z.
Proof.
  induction rows as [|r rows IH]; intros p Hp Hb;
    [unfold count_entries, count_exits; simpl; lia|].
  inversion Hb as [|r' rows' Hr Hrest]; subst.
  specialize (IH (position r) Hr Hrest).
  change (map position (r :: rows)) with (position r :: map position rows).
  rewrite last_cons_default.
  change (mark_from (Some p) (r :: rows))
    with (mkMarked r ((position r =? 1)%Z && (p =? 0)%Z)
                     ((position r =? 0)%Z && (p =? 1)%Z)
            :: mark_from (Some (position r)) rows).
  rewrite count_entries_cons, count_exits_cons, !Nat2Z.inj_add.
  cbn [entry exit].
  destruct Hp as [-> | ->]; destruct Hr as [E | E]; rewrite E in *;
    cbn [Z.eqb Pos.eqb andb Z.of_nat Pos.of_succ_nat]; lia.
Qed.

Lemma last_map_position (rows : list Row) :
  last (map position rows) 0%Z = position (last rows no_row).
Proof.
  induction rows as [|r rows IH]; [reflexivity|].
  destruct rows as [|r' rows]; [reflexivity|].
  simpl in *. exact IH.
Qed.

(** X17.  The "entry" and "exit" columns the harness adds to what a
    simulator returns on a series of at least two rows: the other columns
    are left as they were, no row is marked both as entry and as exit, and
    the number of entry marks is the number of exit marks, plus one when the
    last row still holds a position. *)
Theorem entry_and_exit_marks_balance
    (calc_ma : list PriceBar -> Z -> list cell) (df : list PriceBar) :
  (2 <= length df)%nat ->
  let balanced rows marked :=
    map row marked = rows /\
    Forall (fun m => entry m && exit m = false) marked /\
    count_entries marked
    = (count_exits marked
       + (if (position (last rows no_row) =? 1)%Z then 1 else 0))%nat in
  (forall s l, exists rows marked,
      backtest_strategy_two calc_ma df s l = Full rows /\
      mark_entry_exit (Full rows) = Returns marked /\
      balanced rows marked) /\
  (forall s m l, exists rows marked,
      backtest_strategy_three calc_ma df s m l = Full rows /\
      mark_entry_exit (Full rows) = Returns marked /\
      balanced rows marked).
Proof.
  intros H balanced.
  assert (Hgen : forall rows, laid_out_on df rows ->
                   balanced rows (mark_from None rows)).
  { intros rows (Hbar & (_ & _ & Hflat) & Hbin & _). unfold balanced.
    split; [apply mark_from_row|]. split; [apply mark_from_exclusive|].
    destruct rows as [|r0 rest]; [rewrite <- Hbar in H; simpl in H; lia|].
    simpl in Hflat. inversion Hbin as [|r' rows' _ Hrest]; subst.
    pose proof (mark_balance rest 0%Z (or_introl eq_refl) Hrest) as B.
    rewrite <- last_map_position.
    change (map position (r0 :: rest)) with (position r0 :: map position rest).
    rewrite last_cons_default, Hflat.
    change (mark_from None (r0 :: rest))
      with (mkMarked r0 ((position r0 =? 1)%Z && false)
                        ((position r0 =? 0)%Z && false)
              :: mark_from (Some (position r0)) rest).
    rewrite count_entries_cons, count_exits_cons. cbn [entry exit].
    rewrite !andb_false_r, Hflat. cbn [Nat.add].
    assert (Hl : last (map position rest) 0%Z = 0%Z
                 \/ last (map position rest) 0%Z = 1%Z).
    { clear - Hrest. rewrite last_map_position.
      destruct rest as [|r rest] using rev_ind; [now left|].
      rewrite last_last. apply Forall_app in Hrest.
      destruct Hrest as [_ Hr]. now inversion Hr. }
    destruct Hl as [E | E]; rewrite E in *; cbn [Z.eqb Pos.eqb]; lia. }
  destruct (trajectory_rows calc_ma df H) as [H2 H3].
  split; intros.
  - destruct (H2 s l) as (rows & E & Hl). exists rows, (mark_from None rows).
    split; [exact E|]. split; [reflexivity|]. now apply Hgen.
  - destruct (H3 s m l) as (rows & E & Hl). exists rows, (mark_from None rows).
    split; [exact E|]. split; [reflexivity|]. now apply Hgen.
Qed.

(** The marks on a frame with one round trip that ends before the last
    row. *)
Lemma entry_and_exit_marks_balance_witness :
  let df := bars [1; 2; 3; 3; 4; 2; 2] [1; 2; 3; 4; 5; 1; 1] in
  exists rows marked,
    backtest_strategy_three sma df 1 2 3 = Full rows /\
    mark_entry_exit (Full rows) = Returns marked /\
    map row marked = rows /\
    Forall (fun m => entry m && exit m = false) marked /\
    count_entries marked
    = (count_exits marked
       + (if (position (last rows no_row) =? 1)%Z then 1 else 0))%nat.
Proof.
  intro df.
  assert (H : (2 <= length df)%nat) by (vm_compute; lia).
  exact (proj2 (entry_and_exit_marks_balance sma df H) 1%Z 2%Z 3%Z).
Defined.

(* ================================================================== *)
(** ** The short summary *)
(* ================================================================== *)

Lemma filter_map_length {A} (h : A -> Q) (f : Q -> bool) (l : list A) :
  length (filter f (map h l)) = length (filter (fun a => f (h a)) l).
Proof.
  induction l as [|a l IH]; simpl; [reflexivity|].
  destruct (f (h a)); simpl; now rewrite IH.
Qed.

Lemma filter_length_mono {A} (f g : A -> bool) (l : list A) :
  (forall a, In a l -> f a = true -> g a = true) ->
  (length (filter f l) <= length (filter g l))%nat.
Proof.
  induction l as [|a l IH]; intro H; simpl; [lia|].
  assert (IH' := IH (fun b Hb => H b (or_intror Hb))).
  destruct (f a) eqn:Ef.
  - rewrite (H a (or_introl eq_refl) Ef). simpl. lia.
  - destruct (g a); simpl; lia.
Qed.

Lemma filter_length_ext {A} (f g : A -> bool) (l : list A) :
  (forall a, In a l -> f a = g a) ->
  length (filter f l) = length (filter g l).
Proof.
  intro H. apply Nat.le_antisymm; apply filter_length_mono;
    intros a Ha E; [rewrite <- (H a Ha) | rewrite (H a Ha)]; exact E.
Qed.

Lemma result_F_nonempty r df :
  result_F (r :: df)
  = inr (mkSummary
           (Metrics.iloc_last (map (fun r => cus (base r)) (r :: df)))
           (length (filter nonzero (map sign (r :: df))))
           (Metrics.maxdrawdown (map (fun r => cus (base r)) (r :: df)))
           (match length (filter nonzero (map sign (r :: df))) with
            | O => 0
            | S _ =>
                Qlen (filter (fun x => Qltb 0 x)
                        (map (fun r => ret (base r)) (r :: df)))
                / inject_Z (Z.of_nat (length (filter nonzero (map sign (r :: df)))))
            end)).
Proof. reflexivity. Qed.


(** X19.  The win rate of [result_F] is 0 when no row has a non-zero sign,
    and never negative; it is at most 1 when every row with a positive
    return has a non-zero sign.  (It divides the number of rows with a
    positive "ret" by the number of rows with a non-zero "sign", two columns
    the function does not tie to one another.) *)
Theorem result_F_win_ratio (df : list SignedRow) (s : Summary) :
  result_F df = inr s ->
  (trade_count s = 0%nat -> win_ratio s = 0) /\
  0 <= win_ratio s /\
  ((forall r, In r df -> 0 < ret (base r) -> ~ sign r == 0) ->
   win_ratio s <= 1).
Proof.
  destruct df as [|r df]; [discriminate|].
  rewrite result_F_nonempty.
  set (n := length (filter nonzero (map sign (r :: df)))).
  set (W := filter (fun x => Qltb 0 x) (map (fun r => ret (base r)) (r :: df))).
  intro H. injection H as <-. cbn [trade_count win_ratio].
  split; [intros ->; reflexivity|].
  destruct n as [|n'] eqn:En; [split; [lra | intros _; lra]|].
  assert (Hn : 0 < inject_Z (Z.of_nat (S n'))).
  { unfold Qlt. simpl. lia. }
  split.
  - apply Qle_shift_div_l; [exact Hn|]. pose proof (Qlen_nonneg W). lra.
  - intro Hsign. apply Qle_shift_div_r; [exact Hn|].
    unfold Qlen. rewrite Qmult_1_l, <- Zle_Qle. apply Nat2Z.inj_le.
    rewrite <- En. unfold W, n. rewrite !filter_map_length.
    apply filter_length_mono. intros a Ha E.
    apply nonzero_true. apply Hsign; [exact Ha | now apply Qltb_lt].
Qed.

(** A frame of three rows, two of them trades, one of these a win. *)
Lemma result_F_win_ratio_witness :
  let df := [mkSigned (mkRow (mkBar 1 1) 0 0 0 0) 0;
             mkSigned (mkRow (mkBar 1 3) 2 2 0 2) 1;
             mkSigned (mkRow (mkBar 3 2) (-1) 1 0 1) 1] in
  exists s, result_F df = inr s /\ win_ratio s == 1 # 2 /\ win_ratio s <= 1.
Proof.
  intro df.
  assert (E : exists s, result_F df = inr s /\ win_ratio s == 1 # 2).
  { eexists. split; [reflexivity | vm_compute; reflexivity]. }
  destruct E as (s & E & Hw). exists s. split; [exact E|]. split; [exact Hw|].
  apply (proj2 (proj2 (result_F_win_ratio df s E))).
  intros r Hin Hpos. unfold df in Hin. simpl in Hin.
  destruct Hin as [<- | [<- | [<- | []]]]; simpl in *;
    try (intro C; discriminate C); exfalso; revert Hpos; vm_compute; congruence.
Defined.

Lemma winning_of_nonzero l :
  filter (fun x => Qltb 0 x) (filter nonzero l) = filter (fun x => Qltb 0 x) l.
Proof.
  induction l as [|x l IH]; simpl; [reflexivity|].
  destruct (nonzero x) eqn:En; simpl; rewrite IH; [reflexivity|].
  apply nonzero_false in En.
  assert (E : Qltb 0 x = false) by (apply Qltb_ge; lra).
  now rewrite E.
Qed.

(** X20.  On a frame whose "sign" column is non-zero exactly on the rows
    whose "ret" is non-zero, [result_F] and the metrics engine agree: the
    last return is the final equity, the maximum drawdown is the same
    value, the trade count is the total trade count, and the win rate is the
    winning count divided by the total trade count (0 when there is no
    trade). *)
Theorem result_F_agrees_with_engine (df : list SignedRow) (s : Summary) :
  (forall r, In r df -> (sign r == 0 <-> ret (base r) == 0)) ->
  result_F df = inr s ->
  let r := Metrics.calculate_strategy_one_performance (map base df) in
  last_return s = Metrics.final_equity r /\
  max_drawdown s = Metrics.mdd r /\
  trade_count s = Metrics.total_trades r /\
  win_ratio s
  = match Metrics.total_trades r with
    | O => 0
    | S _ => inject_Z (Z.of_nat (Metrics.num_winning_trades r))
             / inject_Z (Z.of_nat (Metrics.total_trades r))
    end.
Proof.
  intros Hsign H r.
  destruct df as [|r0 df0]; [discriminate|].
  rewrite result_F_nonempty in H. set (df := r0 :: df0) in *.
  apply (f_equal (fun x : index_error + Summary =>
                    match x with inr y => y | inl _ => s end)) in H.
  cbv beta iota in H. subst s.
  cbn [last_return max_drawdown trade_count win_ratio].
  pose proof (performance_fields (map base df)) as F. cbv zeta in F. fold r in F.
  destruct F as (Ht & Hw & _ & _ & _ & _ & _ & _ & _ & _ & _ & _ & Hf).
  assert (Ecount : length (filter nonzero (map sign df)) = Metrics.total_trades r).
  { rewrite Ht. unfold Metrics.trades_of.
    rewrite map_map, !filter_map_length.
    apply filter_length_ext. intros a Ha.
    destruct (nonzero (sign a)) eqn:E1; destruct (nonzero (ret (base a))) eqn:E2;
      try reflexivity; exfalso.
    - apply nonzero_true in E1. apply nonzero_false in E2.
      apply E1. now apply (Hsign a Ha).
    - apply nonzero_false in E1. apply nonzero_true in E2.
      apply E2. now apply (Hsign a Ha). }
  assert (Ewin : length (filter (fun x => Qltb 0 x)
                           (map (fun r => ret (base r)) df))
                 = Metrics.num_winning_trades r).
  { rewrite Hw. unfold Metrics.winning, Metrics.trades_of.
    now rewrite winning_of_nonzero, map_map. }
  split; [|split; [|split]].
  - now rewrite Hf, map_map.
  - unfold r. now rewrite mdd_field, map_map.
  - exact Ecount.
  - unfold Qlen. now rewrite Ewin, Ecount.
Qed.

(** A frame of three rows whose signs mark the two trades. *)
Lemma result_F_agrees_with_engine_witness :
  let df := [mkSigned (mkRow (mkBar 1 1) 0 0 0 0) 0;
             mkSigned (mkRow (mkBar 1 3) 2 2 0 2) 1;
             mkSigned (mkRow (mkBar 3 2) (-1) 1 0 1) (-1)] in
  exists s,
    result_F df = inr s /\
    trade_count s
    = Metrics.total_trades
        (Metrics.calculate_strategy_one_performance (map base df)).
Proof.
  intro df.
  assert (E : exists s, result_F df = inr s) by (eexists; reflexivity).
  destruct E as (s & E). exists s. split; [exact E|].
  apply (result_F_agrees_with_engine df s); [|exact E].
  intros r Hin. unfold df in Hin. simpl in Hin.
  destruct Hin as [<- | [<- | [<- | []]]]; simpl;
    split; intro C; try reflexivity; discriminate C.
Defined.

(* ================================================================== *)
(** ** The engine on degenerate trajectories *)
(* ================================================================== *)

Lemma flat_rows_have_no_trades rows :
  Forall flat_zero rows -> Metrics.trades_of rows = [].
Proof.
  unfold Metrics.trades_of.
  induction 1 as [|r rows (Hr & _ & _) _ IH]; [reflexivity|].
  simpl. rewrite Hr, IH. reflexivity.
Qed.

Lemma flat_rows_equity rows i :
  Forall flat_zero rows -> equity_at (map cus rows) i = 0.
Proof.
  intro H. unfold equity_at. revert i.
  induction H as [|r rows (_ & Hc & _) _ IH]; intro i; [now destruct i|].
  destruct i as [|i]; simpl; [exact Hc | apply IH].
Qed.

(** X21.  A trajectory without a trade and without equity, as the
    simulators return when no entry signal occurs: for every non-empty
    frame whose rows are all flat with zero return and zero equity, the
    engine reports no trade, final equity 0, net profit 0, the win-rate text
    "0.00%", the profit/loss ratio 0, both streaks 0, and a maximum drawdown
    that is a finite number equal to 0. *)
Theorem metrics_of_flat_frame (rows : list Row) :
  Forall flat_zero rows ->
  rows <> [] ->
  let r := Metrics.calculate_strategy_one_performance rows in
  Metrics.total_trades r = 0%nat /\
  Metrics.final_equity r = 0 /\
  Metrics.net_profit r = 0 /\
  Metrics.win_rate r = Str "0.00%" /\
  Metrics.profit_loss_ratio r = Fin 0 /\
  Metrics.longest_win_streak r = 0%nat /\
  Metrics.longest_loss_streak r = 0%nat /\
  exists m, Metrics.mdd r = Fin m /\ m == 0.
Proof.
  intros Hflat Hne r.
  pose proof (flat_rows_have_no_trades rows Hflat) as E.
  destruct (performance_without_trades rows E) as (Ht & Hw & Hr). fold r in Ht, Hw, Hr.
  pose proof (performance_fields rows) as F. cbv zeta in F. fold r in F.
  rewrite E in F.
  destruct F as (_ & _ & _ & Hn & _ & _ & _ & _ & _ & _ & Hlw & Hll & Hf).
  split; [exact Ht|]. split.
  { rewrite Hf, last_map_cus.
    assert (Hin : In (last rows no_row) rows).
    { destruct rows as [|r0 rest] using rev_ind; [contradiction|].
      rewrite last_last. apply in_or_app. right. now left. }
    exact (proj1 (proj2 (proj1 (Forall_forall _ _) Hflat _ Hin))). }
  split; [exact Hn|]. split; [exact Hw|]. split; [exact Hr|].
  split; [exact Hlw|]. split; [exact Hll|].
  unfold r. rewrite mdd_field.
  destruct (maxdrawdown_is_max_drawdown (map cus rows)) as [m [Em Hm]].
  - destruct rows; [contradiction | discriminate].
  - exists m. split; [exact Em|].
    apply (is_max_drawdown_flat _ _ Hm).
    intros i j _. rewrite !flat_rows_equity by exact Hflat. apply Qle_refl.
Qed.

(** The frame strategy two returns with both periods equal to 2. *)
Lemma metrics_of_flat_frame_witness :
  let rows := assemble (bars [1; 3; 1; 0] [1; 3; 1; 3]) (repeat init_out 4) in
  backtest_strategy_two sma (bars [1; 3; 1; 0] [1; 3; 1; 3]) 2 2 = Full rows /\
  Metrics.total_trades (Metrics.calculate_strategy_one_performance rows) = 0%nat /\
  exists m,
    Metrics.mdd (Metrics.calculate_strategy_one_performance rows) = Fin m /\
    m == 0.
Proof.
  intro rows. split; [vm_compute; reflexivity|].
  assert (Hflat : Forall flat_zero rows) by apply assemble_untouched.
  assert (Hne : rows <> []) by (vm_compute; discriminate).
  pose proof (metrics_of_flat_frame rows Hflat Hne) as P. cbv zeta in P.
  split; [apply P|].
  destruct P as (_ & _ & _ & _ & _ & _ & _ & Hm). exact Hm.
Defined.
